(** * Star-registry blockchain: a shallow embedding of [src/blockchain.js]

    The development follows the source file top to bottom.

    - [JS]: the fragment of JavaScript the class relies on: numbers with
      [NaN], [String.prototype.split], [slice(0,-3)], [parseInt], and the
      decimal [toString] of an integer.
    - [Promise]: settlements and settle-once promise cells.
    - [Block]: the block record ([block.js] is not part of the sources; what
      is needed of it is taken as a parameter or modelled from the
      specification, and marked so).
    - [Blockchain]: the class itself.  Methods that only run synchronous code
      inside their executor are functions of the ledger; methods that
      register [then] callbacks are split into the synchronous part (what the
      executor does before it returns) and the callbacks, which the job
      queue runs afterwards, in the order in which they were registered. *)

From Stdlib Require Import ZArith String Ascii Lia.
From stdpp Require Import base list strings.

Open Scope Z_scope.

(* ===================================================================== *)
(** ** The JavaScript fragment                                             *)
(* ===================================================================== *)

Module JS.

(** Numbers.  Every number the class computes with is an integer or [NaN];
    integers are kept exact (the code only meets values far below 2^53,
    and a comparison against the constant 300 is not affected by the
    rounding of a larger literal). *)
Inductive number : Type :=
| NaN : number
| Num : Z -> number.

(** [a - b] *)
Definition sub (a b : number) : number :=
  match a, b with
  | Num x, Num y => Num (x - y)
  | _, _ => NaN
  end.

(** [a < b]: false as soon as one side is [NaN]. *)
Definition lt (a b : number) : bool :=
  match a, b with
  | Num x, Num y => x <? y
  | _, _ => false
  end.

(** [s.split(sep)] for a one-character separator. *)
Fixpoint split (sep : ascii) (s : string) : list string :=
  match s with
  | EmptyString => [EmptyString]
  | String c s' =>
      if Ascii.eqb c sep then EmptyString :: split sep s'
      else match split sep s' with
           | seg :: rest => String c seg :: rest
           | [] => [String c EmptyString]
           end
  end.

(** [s.slice(0, -k)]: all but the last [k] characters. *)
Definition slice_0_neg (k : nat) (s : string) : string :=
  let l := list_ascii_of_string s in
  string_of_list_ascii (take (length l - k)%nat l).

(** *** [toString] of an integer *)

Definition digit_char (d : Z) : ascii :=
  ascii_of_N (48 + Z.to_N d).

(** The characters ["0"] to ["9"]. *)
Definition decimal (c : ascii) : Prop :=
  exists d, 0 <= d < 10 /\ c = digit_char d.

(** Decimal digits, least significant first. *)
Fixpoint digits_le (fuel : nat) (n : Z) : list ascii :=
  match fuel with
  | O => []
  | S fuel' =>
      if n <? 10 then [digit_char n]
      else digit_char (n mod 10) :: digits_le fuel' (n / 10)
  end.

Definition digits_fuel (n : Z) : nat := S (Z.to_nat (Z.log2 n)).

Definition toString (n : Z) : string :=
  if n <? 0
  then String "-" (string_of_list_ascii (rev (digits_le (digits_fuel (- n)) (- n))))
  else string_of_list_ascii (rev (digits_le (digits_fuel n) n)).

(** *** [parseInt(string)] without a radix argument *)

(** The white space [parseInt] skips (code units below 256). *)
Definition is_white_space (c : ascii) : bool :=
  let n := N_of_ascii c in
  ((9 <=? n) && (n <=? 13) || (n =? 32) || (n =? 160))%N.

Fixpoint trim_start (s : string) : string :=
  match s with
  | String c s' => if is_white_space c then trim_start s' else s
  | EmptyString => EmptyString
  end.

(** Value of a character as a digit in some radix up to 36. *)
Definition digit_value (c : ascii) : option Z :=
  let n := Z.of_N (N_of_ascii c) in
  if (48 <=? n) && (n <=? 57) then Some (n - 48)
  else if (97 <=? n) && (n <=? 122) then Some (n - 87)
  else if (65 <=? n) && (n <=? 90) then Some (n - 55)
  else None.

(** The longest prefix of radix-[R] digits, as a number; [None] when the
    prefix is empty. *)
Fixpoint parse_digits (R : Z) (s : string) (acc : option Z) : option Z :=
  match s with
  | String c s' =>
      match digit_value c with
      | Some d =>
          if d <? R then parse_digits R s' (Some (default 0 acc * R + d))
          else acc
      | None => acc
      end
  | EmptyString => acc
  end.

Definition strip_sign (s : string) : Z * string :=
  match s with
  | String "-" r => (-1, r)
  | String "+" r => (1, r)
  | _ => (1, s)
  end.

Definition strip_radix_prefix (s : string) : Z * string :=
  match s with
  | String "0" (String "x" r) => (16, r)
  | String "0" (String "X" r) => (16, r)
  | _ => (10, s)
  end.

Definition parseInt (s : string) : number :=
  let '(sign, s1) := strip_sign (trim_start s) in
  let '(R, s2) := strip_radix_prefix s1 in
  match parse_digits R s2 None with
  | None => NaN
  | Some z => Num (sign * z)
  end.

(** A value that is a string or [undefined], and its [ToString]. *)
Definition ToString (v : option string) : string :=
  match v with
  | Some s => s
  | None => "undefined"
  end.

End JS.

(* ===================================================================== *)
(** ** Promises                                                            *)
(* ===================================================================== *)

Module Promise.

(** How a promise ends. *)
Inductive settlement (A E : Type) : Type :=
| Fulfilled : A -> settlement A E
| Rejected : E -> settlement A E.
Arguments Fulfilled {A E} _.
Arguments Rejected {A E} _.

(** A promise cell: pending ([None]) or settled. *)
Definition state (A E : Type) : Type := option (settlement A E).

(** [resolve(v)] / [reject(e)] of a promise: only the first call counts. *)
Definition settle {A E} (r : settlement A E) (p : state A E) : state A E :=
  match p with
  | None => Some r
  | Some _ => p
  end.

End Promise.

Abbreviation Fulfilled := Promise.Fulfilled.
Abbreviation Rejected := Promise.Rejected.

(** Values the class rejects with: a string, or an [Error] object. *)
Inductive thrown : Type :=
| StringValue (s : string)
| ErrorObject (message : string).

(* ===================================================================== *)
(** ** Blocks                                                              *)
(* ===================================================================== *)

Module Block.

(** The object handed to the [Block] constructor: [{data: 'Genesis Block'}]
    in [initializeChain], [{address, message, signature, star}] in
    [submitStar].  The star is opaque to the class. *)
Inductive data : Type :=
| GenesisData (data : string)
| StarData (address message signature star : string).

(** [body.address]: [undefined] on the genesis payload. *)
Definition address (d : data) : option string :=
  match d with
  | GenesisData _ => None
  | StarData a _ _ _ => Some a
  end.

(** [body.star] *)
Definition star (d : data) : option string :=
  match d with
  | GenesisData _ => None
  | StarData _ _ _ s => Some s
  end.

(** The fields [blockchain.js] reads and writes.  [hash] and
    [previousBlockHash] are a string or [null]. *)
Record t : Type := mk {
  hash : option string;
  height : Z;
  body : string;
  time : string;
  previousBlockHash : option string
}.

Definition set_hash (v : option string) (b : t) : t :=
  mk v (height b) (body b) (time b) (previousBlockHash b).
Definition set_height (v : Z) (b : t) : t :=
  mk (hash b) v (body b) (time b) (previousBlockHash b).
Definition set_body (v : string) (b : t) : t :=
  mk (hash b) (height b) v (time b) (previousBlockHash b).
Definition set_time (v : string) (b : t) : t :=
  mk (hash b) (height b) (body b) v (previousBlockHash b).
Definition set_previousBlockHash (v : option string) (b : t) : t :=
  mk (hash b) (height b) (body b) (time b) v.

#[global] Instance t_eq_dec : EqDecision t.
Proof. solve_decision. Defined.

End Block.

(** What [bitcoinMessage.verify] does: it returns a boolean or throws. *)
Inductive VerifyResult : Type :=
| Returns (verified : bool)
| Throws (message : string).

(** The collaborators of the class: the digest, the serializer, the
    signature check, and the methods of [block.js] whose code is not part of
    the sources. *)
Class Capabilities : Type := {
  (** [SHA256(s).toString()] *)
  SHA256 : string -> string;
  (** [JSON.stringify(block)] *)
  JSON_stringify : Block.t -> string;
  (** [bitcoinMessage.verify(message, address, signature)] *)
  bitcoinMessage_verify : string -> string -> string -> VerifyResult;
  (** the payload codec used by [block.js] *)
  encode : Block.data -> string;
  decode : string -> option Block.data;
  (** how the promise returned by [block.validate()] settles *)
  validate : Block.t -> Promise.settlement bool thrown
}.

Section BlockMethods.
Context `{Capabilities}.

(** Modelled from the spec: the constructor of [block.js], which is not
    part of the sources.  A new block carries the encoded payload; its hash
    and previous hash are the "none" value until the ledger assigns them,
    and height and time are assigned at append time. *)
Definition Block_new (d : Block.data) : Block.t :=
  Block.mk None 0 (encode d) "0" None.

(** The content of a block without its own hash: the block as
    [JSON.stringify] sees it before line 79 assigns the hash. *)
Definition content (b : Block.t) : Block.t := Block.set_hash None b.

(** Modelled from the spec: [selfValidate] of [block.js] recomputes the
    digest over the block's content, all fields except the stored hash, and
    compares it to the stored hash. *)
Definition selfValidate (b : Block.t) : bool :=
  bool_decide (Block.hash b = Some (SHA256 (JSON_stringify (content b)))).

(** Modelled from the spec: [decodePayload] ([getBData] in the code) of
    [block.js] decodes the stored blob back to structured form and fails
    with a decode error on a malformed blob. *)
Definition getBData (b : Block.t) : Promise.settlement Block.data thrown :=
  match decode (Block.body b) with
  | Some d => Fulfilled d
  | None => Rejected (ErrorObject "DecodeError")
  end.

End BlockMethods.

(* ===================================================================== *)
(** ** The Blockchain class                                                *)
(* ===================================================================== *)

Module Blockchain.

(** [this.chain] and [this.height]. *)
Record t : Type := mk {
  chain : list Block.t;
  height : Z
}.

(** A method that runs to completion on the ledger: how its promise
    settles, and the ledger it leaves. *)
Definition M (A : Type) : Type := t -> Promise.settlement A thrown * t.

(** An entry of the array [getStarsByWalletAddress] fills. *)
Record StarEntry : Type := mkStarEntry {
  owner : string;
  star : option string
}.

(** What the array named [stars] can hold: blocks that [filter] kept, and
    the entries pushed by the callbacks. *)
Inductive element : Type :=
| BlockElement (b : Block.t)
| StarElement (e : StarEntry).

(** An entry of [errorLog]. *)
Record ErrorRecord : Type := mkErrorRecord {
  block : Block.t;
  message : string
}.

(** One call of [getStarsByWalletAddress]: the arrays it has allocated
    (an array is known by its index here, so that two names for one array
    stay one array), the variable [stars], the promise it returned
    (settled with an array reference), and the callbacks waiting in the
    job queue, each with the settlement of the [getBData()] promise it was
    registered on. *)
Record StarsCall : Type := mkStarsCall {
  arrays : list (list element);
  stars : nat;
  stars_promise : Promise.state nat thrown;
  stars_jobs : list (Promise.settlement Block.data thrown)
}.

(** The value [reject(errorLog)] would pass: the array itself. *)
Inductive errorLog_ref : Type := the_errorLog.

(** One call of [validateChain]. *)
Record ValidateCall : Type := mkValidateCall {
  errorLog : list ErrorRecord;
  previousBlockHash : option string;
  validate_promise : Promise.state unit errorLog_ref;
  validate_jobs : list (Block.t * Promise.settlement bool thrown)
}.

Section Methods.
Context `{Capabilities}.

(** Lines 27-28: the fields as the constructor sets them before it
    calls [initializeChain]. *)
Definition empty : t := mk [] (-1).

(** Lines 47-51. *)
Definition getChainHeight : M Z :=
  fun self => (Fulfilled (height self), self).

(** [new Date().getTime().toString().slice(0,-3)] at clock reading
    [now] (milliseconds). *)
Definition seconds_string (now : Z) : string :=
  JS.slice_0_neg 3 (JS.toString now).

(** Lines 70-85: the callback of [getChainHeight().then], given the
    height the promise was resolved with.  Reading [.hash] of a missing
    array element throws; line 86 turns that into a rejection.  The
    candidate is a block no other name refers to, as the ones made at lines
    39 and 140 are: lines 71-79 assign into the object handed in and line 81
    pushes that object, which for such a block is the value built here. *)
Definition _addBlock_then (now : Z) (block : Block.t) (chainHeight : Z) : M Block.t :=
  fun self =>
    let block := Block.set_height (chainHeight + 1) block in
    let linked :=
      if chainHeight >? -1 then
        match chain self !! Z.to_nat chainHeight with
        | Some prev => Some (Block.set_previousBlockHash (Block.hash prev) block)
        | None => None
        end
      else Some block in
    match linked with
    | None =>
        (Rejected (ErrorObject "Cannot read properties of undefined (reading 'hash')"), self)
    | Some block =>
        let block := Block.set_time (seconds_string now) block in
        let block := Block.set_hash (Some (SHA256 (JSON_stringify block))) block in
        (Fulfilled block, mk (chain self ++ [block]) (height self + 1))
    end.

(** Lines 65-88, run to completion: the height is read when
    [getChainHeight] is called, the callback runs next. *)
Definition _addBlock (now : Z) (block : Block.t) : M Block.t :=
  fun self =>
    match getChainHeight self with
    | (Fulfilled chainHeight, self') => _addBlock_then now block chainHeight self'
    | (Rejected e, self') => (Rejected e, self')
    end.

(** Lines 37-42. *)
Definition initializeChain (now : Z) : M unit :=
  fun self =>
    if bool_decide (height self = -1) then
      match _addBlock now (Block_new (Block.GenesisData "Genesis Block")) self with
      | (Fulfilled _, self') => (Fulfilled tt, self')
      | (Rejected e, self') => (Rejected e, self')
      end
    else (Fulfilled tt, self).

(** Lines 26-30, with the append that [initializeChain] started run to
    completion. *)
Definition constructor (now : Z) : t := snd (initializeChain now empty).

(** Lines 98-106. *)
Definition requestMessageOwnershipVerification (now : Z) (address : string) : string :=
  (address ++ ":") ++ (seconds_string now ++ ":") ++ "starRegistry".

(** Line 129. *)
Definition messageTime (message : string) : JS.number :=
  JS.parseInt (JS.ToString (JS.split ":" message !! 1%nat)).

(** Line 131. *)
Definition currentTime (now : Z) : JS.number :=
  JS.parseInt (seconds_string now).

(** Lines 125-156.  [now] is the clock reading of line 131, [now'] the
    one [_addBlock] takes at line 77. *)
Definition submitStar (now now' : Z) (address message signature star : string) : M Block.t :=
  fun self =>
    let messageTime := messageTime message in
    let currentTime := currentTime now in
    match bitcoinMessage_verify message address signature with
    | Throws error_message => (Rejected (StringValue error_message), self)
    | Returns verified =>
        if JS.lt (JS.sub currentTime messageTime) (JS.Num (60 * 5)) then
          if verified then
            let block := Block_new (Block.StarData address message signature star) in
            _addBlock now' block self
          else (Rejected (StringValue "Signature not verified"), self)
        else (Rejected (StringValue "Validation older than 5 minutes"), self)
    end.

(** Lines 164-175.  The argument is a string or [null], as the stored
    hashes are. *)
Definition getBlockByHash (hash : option string) : M (option Block.t) :=
  fun self =>
    let foundBlock := List.find (fun block => bool_decide (Block.hash block = hash)) (chain self) in
    (Fulfilled foundBlock, self).

(** Lines 182-193.  The argument is a number. *)
Definition getBlockByHeight (height : Z) : M (option Block.t) :=
  fun self =>
    let block := head (List.filter (fun p => bool_decide (Block.height p = height)) (chain self)) in
    (Fulfilled block, self).

(** *** getStarsByWalletAddress, lines 201-221 *)

(** [stars.push(entry)]: the array the variable [stars] names now. *)
Definition stars_push (entry : StarEntry) (c : StarsCall) : StarsCall :=
  mkStarsCall (alter (fun a => a ++ [StarElement entry]) (stars c) (arrays c))
              (stars c) (stars_promise c) (stars_jobs c).

(** Line 208, inside the filter predicate: [getBData()] is called and
    callbacks are registered on its promise; nothing else happens, and
    the predicate returns [undefined]. *)
Definition stars_predicate (block : Block.t) (c : StarsCall) : bool * StarsCall :=
  (false, mkStarsCall (arrays c) (stars c) (stars_promise c)
                      (stars_jobs c ++ [getBData block])).

(** [self.chain.filter(predicate)]: the elements the predicate keeps. *)
Fixpoint stars_filter (blocks : list Block.t) (c : StarsCall) : list Block.t * StarsCall :=
  match blocks with
  | [] => ([], c)
  | block :: rest =>
      let '(keep, c1) := stars_predicate block c in
      let '(kept, c2) := stars_filter rest c1 in
      (if keep then block :: kept else kept, c2)
  end.

(** Lines 203-220, up to the return of the executor.  Line 203 binds
    [stars] to a first array; the array that [filter] returns is a new
    one, holding the blocks the predicate kept, and [stars] names it from
    line 206 on; line 219 resolves the promise with it. *)
Definition getStarsByWalletAddress_executor (address : string) (self : t) : StarsCall :=
  let c0 := mkStarsCall [[]] 0 None [] in
  let '(kept, c1) := stars_filter (chain self) c0 in
  let c2 := mkStarsCall (arrays c1 ++ [List.map BlockElement kept]) (length (arrays c1))
                        (stars_promise c1) (stars_jobs c1) in
  mkStarsCall (arrays c2) (stars c2)
              (Promise.settle (Fulfilled (stars c2)) (stars_promise c2))
              (stars_jobs c2).

(** Lines 208-217: the callbacks registered for one block, run when the
    job queue reaches them. *)
Definition stars_job (address : string) (decoded : Promise.settlement Block.data thrown)
                     (c : StarsCall) : StarsCall :=
  match decoded with
  | Fulfilled body =>
      if bool_decide (Block.address body = Some address) then
        stars_push (mkStarEntry address (Block.star body)) c
      else c
  | Rejected e =>
      mkStarsCall (arrays c) (stars c)
                  (Promise.settle (Rejected e) (stars_promise c)) (stars_jobs c)
  end.

(** The job queue, drained. *)
Definition getStarsByWalletAddress_jobs (address : string) (c : StarsCall) : StarsCall :=
  let c' := fold_left (fun c decoded => stars_job address decoded c) (stars_jobs c) c in
  mkStarsCall (arrays c') (stars c') (stars_promise c') [].

(** The array a reference stands for. *)
Definition array_of (c : StarsCall) (r : nat) : list element :=
  default [] (arrays c !! r).

(** *** validateChain, lines 229-259 *)

(** Lines 238-250: the callbacks registered for one block, given how
    the promise of [block.validate()] settled. *)
Definition validate_job (block : Block.t) (validated : Promise.settlement bool thrown)
                        (c : ValidateCall) : ValidateCall :=
  match validated with
  | Fulfilled _ =>
      if bool_decide (previousBlockHash c = Block.previousBlockHash block) then
        mkValidateCall (errorLog c) (Block.hash block) (validate_promise c) (validate_jobs c)
      else
        mkValidateCall
          (errorLog c ++ [mkErrorRecord block "previous hash does not match"])
          (previousBlockHash c) (validate_promise c) (validate_jobs c)
  | Rejected _ =>
      mkValidateCall
        (errorLog c ++ [mkErrorRecord block "Block validation fails"])
        (previousBlockHash c) (validate_promise c) (validate_jobs c)
  end.

(** Line 238, inside the loop: [validate()] is called and the callbacks
    are registered on its promise. *)
Definition validate_register (c : ValidateCall) (block : Block.t) : ValidateCall :=
  mkValidateCall (errorLog c) (previousBlockHash c) (validate_promise c)
                 (validate_jobs c ++ [(block, validate block)]).

(** Lines 231-258, up to the return of the executor. *)
Definition validateChain_executor (self : t) : ValidateCall :=
  let c0 := mkValidateCall [] None None [] in
  let c1 := fold_left validate_register (chain self) c0 in
  if (length (errorLog c1) =? 0)%nat then
    mkValidateCall (errorLog c1) (previousBlockHash c1)
                   (Promise.settle (Fulfilled tt) (validate_promise c1)) (validate_jobs c1)
  else
    mkValidateCall (errorLog c1) (previousBlockHash c1)
                   (Promise.settle (Rejected the_errorLog) (validate_promise c1))
                   (validate_jobs c1).

(** The job queue, drained. *)
Definition validateChain_jobs (c : ValidateCall) : ValidateCall :=
  let c' := fold_left (fun c job => validate_job (fst job) (snd job) c) (validate_jobs c) c in
  mkValidateCall (errorLog c') (previousBlockHash c') (validate_promise c') [].

(** The whole call: executor, then the queued callbacks. *)
Definition validateChain (self : t) : ValidateCall :=
  validateChain_jobs (validateChain_executor self).

Definition getStarsByWalletAddress (address : string) (self : t) : StarsCall :=
  getStarsByWalletAddress_jobs address (getStarsByWalletAddress_executor address self).

End Methods.

End Blockchain.

(* ===================================================================== *)
(** ** Ledger states and the properties stated about them                  *)
(* ===================================================================== *)

Section Ledgers.
Context `{Capabilities}.

(** The ledgers the class can be in between calls: the constructor's,
    and what an append or a submission leaves, one call at a time. *)
Inductive reachable : Blockchain.t -> Prop :=
| reachable_constructor (now : Z) :
    reachable (Blockchain.constructor now)
| reachable_addBlock (now : Z) (d : Block.data) (self : Blockchain.t) :
    reachable self ->
    reachable (snd (Blockchain._addBlock now (Block_new d) self))
| reachable_submitStar (now now' : Z) (address message signature star : string)
                       (self : Blockchain.t) :
    reachable self ->
    reachable (snd (Blockchain.submitStar now now' address message signature star self)).

(** Heights are positions, every block names the hash of the one before
    it, the first block is a genesis block, and the cached height is the
    last position. *)
Record chain_ok (self : Blockchain.t) : Prop := mk_chain_ok {
  ok_nonempty : Blockchain.chain self <> [];
  ok_heights : forall (i : nat) (b : Block.t),
    Blockchain.chain self !! i = Some b -> Block.height b = Z.of_nat i;
  ok_links : forall (i : nat) (b p : Block.t),
    Blockchain.chain self !! S i = Some b ->
    Blockchain.chain self !! i = Some p ->
    Block.previousBlockHash b = Block.hash p;
  ok_genesis : forall g : Block.t,
    Blockchain.chain self !! 0%nat = Some g ->
    Block.height g = 0 /\ Block.previousBlockHash g = None;
  ok_height : Blockchain.height self = Z.of_nat (length (Blockchain.chain self)) - 1
}.

(** The block [_addBlock] stores for a candidate, given the height it
    assigns and the previous hash the block ends up with. *)
Definition sealed (now : Z) (h : Z) (prev : option string) (block : Block.t) : Block.t :=
  let b := Block.set_time (Blockchain.seconds_string now)
             (Block.set_previousBlockHash prev (Block.set_height h block)) in
  Block.set_hash (Some (SHA256 (JSON_stringify b))) b.

(** [elapsed] of the submission protocol: line 136's left-hand side. *)
Definition elapsed (now : Z) (message : string) : JS.number :=
  JS.sub (Blockchain.currentTime now) (Blockchain.messageTime message).

(** The two rejections of the freshness and signature policy. *)
Definition ExpiredChallenge : thrown := StringValue "Validation older than 5 minutes".
Definition InvalidSignature : thrown := StringValue "Signature not verified".

(** The error kinds of the specification, and the kind a caller can take
    a rejection of [submitStar] for: the two literal strings of lines 145
    and 149 are the policy rejections, any other string is the message of
    an error thrown by the signature check, and no rejection of the class
    stands for a malformed message. *)
Inductive ClaimError : Type :=
| MalformedMessage_kind
| VerificationError_kind
| ExpiredChallenge_kind
| InvalidSignature_kind.

Definition kind_of (e : thrown) : option ClaimError :=
  match e with
  | StringValue s =>
      if String.eqb s "Validation older than 5 minutes" then Some ExpiredChallenge_kind
      else if String.eqb s "Signature not verified" then Some InvalidSignature_kind
      else Some VerificationError_kind
  | ErrorObject _ => None
  end.

(** The second colon-delimited segment of a message is absent, or
    [parseInt] finds no integer at its start. *)
Definition no_message_time (message : string) : Prop :=
  match JS.split ":" message !! 1%nat with
  | None => True
  | Some segment => JS.parseInt segment = JS.NaN
  end.

(** The entries for an address among decoded payloads. *)
Definition entry_of (address : string) (decoded : Promise.settlement Block.data thrown)
  : list Blockchain.element :=
  match decoded with
  | Fulfilled body =>
      if bool_decide (Block.address body = Some address)
      then [Blockchain.StarElement (Blockchain.mkStarEntry address (Block.star body))]
      else []
  | Rejected _ => []
  end.

(** A mismatch record of [validateChain]. *)
Definition mismatch (b : Block.t) : Blockchain.ErrorRecord :=
  Blockchain.mkErrorRecord b "previous hash does not match".

End Ledgers.

(* ===================================================================== *)
(** ** Deterministic stand-ins for the collaborators                       *)
(* ===================================================================== *)

Module Fake.

Definition SHA256 (s : string) : string := "sha256(" ++ s ++ ")".

Definition show (h : option string) : string :=
  match h with
  | None => "null"
  | Some s => s
  end.

Definition JSON_stringify (b : Block.t) : string :=
  "{hash:" ++ show (Block.hash b) ++
  ",height:" ++ JS.toString (Block.height b) ++
  ",body:" ++ Block.body b ++
  ",time:" ++ Block.time b ++
  ",previousBlockHash:" ++ show (Block.previousBlockHash b) ++ "}".

(** A signature is the word [signed] applied to address and message; an
    empty signature makes the check throw. *)
Definition verify (message address signature : string) : VerifyResult :=
  if String.eqb signature "" then Throws "Invalid signature length"
  else Returns (String.eqb signature ("signed(" ++ address ++ "," ++ message ++ ")")).

Definition encode (d : Block.data) : string :=
  match d with
  | Block.GenesisData s => "G|" ++ s
  | Block.StarData a m sg st => "S|" ++ a ++ "|" ++ m ++ "|" ++ sg ++ "|" ++ st
  end.

Definition decode (s : string) : option Block.data :=
  match JS.split "|" s with
  | [tag; d] =>
      if String.eqb tag "G" then Some (Block.GenesisData d) else None
  | [tag; a; m; sg; st] =>
      if String.eqb tag "S" then Some (Block.StarData a m sg st) else None
  | _ => None
  end.

(** [validate()] rejects when the recomputed digest differs from the
    stored hash, which is what the second callback of line 247 is for. *)
Definition validate (b : Block.t) : Promise.settlement bool thrown :=
  if bool_decide (Block.hash b = Some (SHA256 (JSON_stringify (Block.set_hash None b))))
  then Fulfilled true
  else Rejected (StringValue "invalid block").

Definition caps : Capabilities :=
  Build_Capabilities SHA256 JSON_stringify verify encode decode validate.

(** *** Sample data *)

Definition addressA : string := "1AddrA".
Definition addressB : string := "1AddrB".
Definition messageA : string := "1AddrA:1700000000:starRegistry".
Definition signatureA : string := "signed(1AddrA,1AddrA:1700000000:starRegistry)".
Definition starA : string := "dec +1 2 3, ra 16h 2m".

(** A new ledger. *)
Definition ledger0 : Blockchain.t :=
  Blockchain.constructor (H := caps) 1700000000000.

(** The ledger after a valid claim for [addressA], ten seconds after the
    challenge was issued. *)
Definition ledger1 : Blockchain.t :=
  snd (Blockchain.submitStar (H := caps) 1700000010000 1700000010500
         addressA messageA signatureA starA ledger0).

(** [ledger1] with the body of its claim block overwritten. *)
Definition tampered : Blockchain.t :=
  Blockchain.mk
    (alter (Block.set_body (encode (Block.StarData addressB messageA signatureA starA)))
           1%nat (Blockchain.chain ledger1))
    (Blockchain.height ledger1).

(** The two blocks of [ledger1]. *)
Definition genesis_block : Block.t :=
  sealed (H := caps) 1700000000000 0 None
    (Block_new (H := caps) (Block.GenesisData "Genesis Block")).

Definition claim_block : Block.t :=
  sealed (H := caps) 1700000010500 1 (Block.hash genesis_block)
    (Block_new (H := caps) (Block.StarData addressA messageA signatureA starA)).

(** Seals a block again after a change: hash recomputed over its content. *)
Definition reseal (b : Block.t) : Block.t :=
  Block.set_hash (Some (SHA256 (JSON_stringify (Block.set_hash None b)))) b.

(** A claim block that validates on its own but names a hash that is not
    the genesis block's, and a block that names the hash of that one. *)
Definition unlinked : Block.t :=
  reseal (Block.set_previousBlockHash (Some "elsewhere") claim_block).

Definition follower : Block.t :=
  sealed (H := caps) 1700000020500 2 (Block.hash unlinked)
    (Block_new (H := caps) (Block.StarData addressA messageA signatureA starA)).

(** Three blocks with one broken link, between the first and the second. *)
Definition broken_link : Blockchain.t :=
  Blockchain.mk [genesis_block; unlinked; follower] 2.

(** A message with no second segment, one whose second segment is not a
    number, and signatures for them. *)
Definition message_no_time : string := "1AddrA".
Definition signature_no_time : string := "signed(1AddrA,1AddrA)".
Definition message_bad_time : string := "1AddrA:soon:starRegistry".
Definition signature_bad_time : string := "signed(1AddrA,1AddrA:soon:starRegistry)".

(** A message whose second segment starts with digits and goes on with
    letters, and a signature for it. *)
Definition message_mixed_time : string := "1AddrA:1700000000abc:starRegistry".
Definition signature_mixed_time : string := "signed(1AddrA,1AddrA:1700000000abc:starRegistry)".

End Fake.

(* ===================================================================== *)
(** ** Properties                                                          *)
(* ===================================================================== *)

(** *** The JavaScript fragment on sample values *)

Example split_challenge :
  JS.split ":" "1AddrA:1700000000:starRegistry" = ["1AddrA"; "1700000000"; "starRegistry"]%string.
Proof. reflexivity. Qed.

Example split_no_separator : JS.split ":" "1AddrA" = ["1AddrA"%string].
Proof. reflexivity. Qed.

Example split_trailing_separator : JS.split ":" "a:" = ["a"; ""]%string.
Proof. reflexivity. Qed.

Example toString_milliseconds : JS.toString 1700000000123 = "1700000000123"%string.
Proof. vm_compute. reflexivity. Qed.

Example toString_negative : JS.toString (-45) = "-45"%string.
Proof. vm_compute. reflexivity. Qed.

Example slice_drops_milliseconds :
  JS.slice_0_neg 3 "1700000000123" = "1700000000"%string.
Proof. vm_compute. reflexivity. Qed.

Example slice_short_string : JS.slice_0_neg 3 "12" = ""%string.
Proof. vm_compute. reflexivity. Qed.

Example parseInt_stops_at_letters : JS.parseInt "  -12abc" = JS.Num (-12).
Proof. vm_compute. reflexivity. Qed.

Example parseInt_hexadecimal : JS.parseInt "0x1f" = JS.Num 31.
Proof. vm_compute. reflexivity. Qed.

Example parseInt_undefined : JS.parseInt (JS.ToString None) = JS.NaN.
Proof. vm_compute. reflexivity. Qed.

Example parseInt_empty : JS.parseInt "" = JS.NaN.
Proof. vm_compute. reflexivity. Qed.

(** *** The clock: seconds as the code computes them *)

Lemma digits_fuel_enough n :
  0 <= n -> (0 < JS.digits_fuel n)%nat /\ n < 2 ^ Z.of_nat (JS.digits_fuel n).
Proof.
  intros Hn. unfold JS.digits_fuel. split; [lia|].
  rewrite Nat2Z.inj_succ, Z2Nat.id by apply Z.log2_nonneg.
  destruct (Z.eq_dec n 0) as [-> | Hnz]; [reflexivity|].
  apply Z.log2_spec. lia.
Qed.

Lemma digits_le_fuel f1 : forall f2 n,
  0 <= n -> (0 < f1)%nat -> (0 < f2)%nat ->
  n < 2 ^ Z.of_nat f1 -> n < 2 ^ Z.of_nat f2 ->
  JS.digits_le f1 n = JS.digits_le f2 n.
Proof.
  induction f1 as [|f1 IH]; intros f2 n Hn H1 H2 Hb1 Hb2; [lia|].
  destruct f2 as [|f2]; [lia|]. simpl.
  destruct (n <? 10) eqn:Hlt; [reflexivity|].
  apply Z.ltb_ge in Hlt. f_equal.
  rewrite Nat2Z.inj_succ, Z.pow_succ_r in Hb1, Hb2 by lia.
  assert (Hf1 : (0 < f1)%nat).
  { destruct f1; [simpl in Hb1; lia | lia]. }
  assert (Hf2 : (0 < f2)%nat).
  { destruct f2; [simpl in Hb2; lia | lia]. }
  apply IH; try assumption.
  - apply Z.div_pos; lia.
  - apply Z.div_lt_upper_bound; lia.
  - apply Z.div_lt_upper_bound; lia.
Qed.

Lemma digits_step n :
  10 <= n ->
  JS.digits_le (JS.digits_fuel n) n
  = JS.digit_char (n mod 10) :: JS.digits_le (JS.digits_fuel (n / 10)) (n / 10).
Proof.
  intros Hn.
  destruct (digits_fuel_enough n ltac:(lia)) as [Hpos Hb].
  destruct (JS.digits_fuel n) as [|f] eqn:Hf; [lia|]. cbn [JS.digits_le].
  replace (n <? 10) with false by (symmetry; apply Z.ltb_ge; lia).
  f_equal.
  assert (Hq : 0 <= n / 10) by (apply Z.div_pos; lia).
  destruct (digits_fuel_enough (n / 10) Hq) as [Hpos' Hb'].
  rewrite Nat2Z.inj_succ, Z.pow_succ_r in Hb by lia.
  apply digits_le_fuel; try assumption.
  - destruct f; [simpl in Hb; lia | lia].
  - apply Z.div_lt_upper_bound; lia.
Qed.

Lemma seconds_string_toString now :
  1000 <= now -> Blockchain.seconds_string now = JS.toString (now / 1000).
Proof.
  intros Hn. unfold Blockchain.seconds_string, JS.toString.
  replace (now <? 0) with false by (symmetry; apply Z.ltb_ge; lia).
  assert (Hq : 0 <= now / 1000) by (apply Z.div_pos; lia).
  replace (now / 1000 <? 0) with false by (symmetry; apply Z.ltb_ge; lia).
  rewrite (digits_step now) by lia.
  assert (H10 : 10 <= now / 10) by (apply Z.div_le_lower_bound; lia).
  rewrite (digits_step (now / 10)) by exact H10.
  rewrite Z.div_div by lia.
  assert (H100 : 10 <= now / (10 * 10)) by (apply Z.div_le_lower_bound; lia).
  rewrite (digits_step (now / (10 * 10))) by exact H100.
  rewrite Z.div_div by lia. change (10 * 10 * 10) with 1000.
  generalize (JS.digits_le (JS.digits_fuel (now / 1000)) (now / 1000)). intros ds.
  unfold JS.slice_0_neg. rewrite list_ascii_of_string_of_list_ascii.
  simpl rev. rewrite <- !app_assoc. simpl app.
  rewrite length_app. simpl length.
  replace (length (rev ds) + 3 - 3)%nat with (length (rev ds)) by lia.
  rewrite take_app_length. reflexivity.
Qed.

Lemma digit_cases d : 0 <= d < 10 ->
  d = 0 \/ d = 1 \/ d = 2 \/ d = 3 \/ d = 4 \/ d = 5 \/ d = 6 \/ d = 7 \/ d = 8 \/ d = 9.
Proof. lia. Qed.

Lemma digit_value_digit_char d : 0 <= d < 10 -> JS.digit_value (JS.digit_char d) = Some d.
Proof.
  intros Hd. destruct (digit_cases d Hd) as [->|[->|[->|[->|[->|[->|[->|[->|[->| ->]]]]]]]]];
    reflexivity.
Qed.

Lemma digits_le_decimal f : forall n, 0 <= n -> Forall JS.decimal (JS.digits_le f n).
Proof.
  induction f as [|f IH]; intros n Hn; simpl; [constructor|].
  destruct (n <? 10) eqn:Hlt.
  - apply Z.ltb_lt in Hlt. repeat constructor. exists n. split; [lia | reflexivity].
  - constructor.
    + exists (n mod 10). split; [apply Z.mod_pos_bound; lia | reflexivity].
    + apply IH, Z.div_pos; lia.
Qed.

(** Parsing the digits of [n] appends them to what was read so far. *)
Lemma parse_digits_rev_digits f : forall n rest acc,
  0 <= n -> (0 < f)%nat -> n < 2 ^ Z.of_nat f ->
  JS.parse_digits 10 (string_of_list_ascii (rev (JS.digits_le f n) ++ rest)) acc
  = JS.parse_digits 10 (string_of_list_ascii rest)
      (Some (default 0 acc * 10 ^ Z.of_nat (length (JS.digits_le f n)) + n)).
Proof.
  induction f as [|f IH]; intros n rest acc Hn Hf Hb; [lia|].
  cbn [JS.digits_le]. destruct (n <? 10) eqn:Hlt.
  - apply Z.ltb_lt in Hlt. simpl rev. simpl app. cbn [string_of_list_ascii JS.parse_digits].
    rewrite digit_value_digit_char by lia.
    replace (n <? 10) with true by (symmetry; apply Z.ltb_lt; lia).
    simpl length. change (10 ^ Z.of_nat 1) with 10. reflexivity.
  - apply Z.ltb_ge in Hlt. simpl rev. rewrite <- app_assoc. simpl app.
    rewrite Nat2Z.inj_succ, Z.pow_succ_r in Hb by lia.
    rewrite IH.
    + cbn [string_of_list_ascii JS.parse_digits].
      rewrite digit_value_digit_char by (apply Z.mod_pos_bound; lia).
      replace (n mod 10 <? 10) with true
        by (symmetry; apply Z.ltb_lt; apply Z.mod_pos_bound; lia).
      f_equal. f_equal. simpl default. simpl length.
      rewrite Nat2Z.inj_succ, Z.pow_succ_r by lia.
      pose proof (Z.div_mod n 10 ltac:(lia)). lia.
    + apply Z.div_pos; lia.
    + destruct f; [simpl in Hb; lia | lia].
    + apply Z.div_lt_upper_bound; lia.
Qed.

Lemma parseInt_decimal c s :
  JS.decimal c ->
  match s with EmptyString => True | String c' _ => JS.decimal c' end ->
  JS.parseInt (String c s)
  = match JS.parse_digits 10 (String c s) None with
    | None => JS.NaN
    | Some z => JS.Num (1 * z)
    end.
Proof.
  intros (d & Hd & ->) Hs.
  destruct (digit_cases d Hd) as [->|[->|[->|[->|[->|[->|[->|[->|[->| ->]]]]]]]]];
    try reflexivity.
  destruct s as [|c' s']; [reflexivity|].
  destruct Hs as (d' & Hd' & ->).
  destruct (digit_cases d' Hd') as [->|[->|[->|[->|[->|[->|[->|[->|[->| ->]]]]]]]]];
    reflexivity.
Qed.

Lemma parseInt_toString n : 0 <= n -> JS.parseInt (JS.toString n) = JS.Num n.
Proof.
  intros Hn. unfold JS.toString.
  replace (n <? 0) with false by (symmetry; apply Z.ltb_ge; lia).
  destruct (digits_fuel_enough n Hn) as [Hpos Hb].
  pose proof (parse_digits_rev_digits (JS.digits_fuel n) n [] None Hn Hpos Hb) as Hparse.
  rewrite app_nil_r in Hparse. cbn [string_of_list_ascii JS.parse_digits default] in Hparse.
  pose proof (digits_le_decimal (JS.digits_fuel n) n Hn) as Hdec.
  apply Forall_rev in Hdec.
  destruct (rev (JS.digits_le (JS.digits_fuel n) n)) as [|c l] eqn:Hrev.
  - cbn [string_of_list_ascii JS.parse_digits] in Hparse. discriminate Hparse.
  - cbn [string_of_list_ascii] in *. rewrite parseInt_decimal.
    + rewrite Hparse. f_equal. lia.
    + inversion Hdec; assumption.
    + inversion Hdec as [|? ? _ Hl]. destruct l; [exact I|]. simpl.
      inversion Hl; assumption.
Qed.

Lemma currentTime_seconds now :
  1000 <= now -> Blockchain.currentTime now = JS.Num (now / 1000).
Proof.
  intros Hn. unfold Blockchain.currentTime.
  rewrite seconds_string_toString by exact Hn.
  apply parseInt_toString, Z.div_pos; lia.
Qed.

(** Splitting after a prefix that holds no separator. *)
Lemma split_prefix sep s t :
  ~ In sep (list_ascii_of_string s) ->
  JS.split sep (s ++ String sep t) = s :: JS.split sep t.
Proof.
  induction s as [|c s IH]; intros Hno; simpl.
  - rewrite Ascii.eqb_refl. reflexivity.
  - simpl in Hno. destruct (Ascii.eqb c sep) eqn:Hc.
    + apply Ascii.eqb_eq in Hc. tauto.
    + rewrite IH by tauto. reflexivity.
Qed.

Lemma string_app_assoc (a b c : string) : ((a ++ b) ++ c = a ++ (b ++ c))%string.
Proof.
  induction a as [|x a IH]; [reflexivity|].
  change (String x ((a ++ b) ++ c) = String x (a ++ (b ++ c)))%string.
  f_equal. exact IH.
Qed.

Lemma decimal_not_colon c : JS.decimal c -> c <> ":"%char.
Proof.
  intros (d & Hd & ->).
  destruct (digit_cases d Hd) as [->|[->|[->|[->|[->|[->|[->|[->|[->| ->]]]]]]]]];
    discriminate.
Qed.

Lemma toString_no_colon n : 0 <= n -> ~ In ":"%char (list_ascii_of_string (JS.toString n)).
Proof.
  intros Hn. unfold JS.toString.
  replace (n <? 0) with false by (symmetry; apply Z.ltb_ge; lia).
  rewrite list_ascii_of_string_of_list_ascii. intros Hin.
  apply in_rev in Hin.
  pose proof (digits_le_decimal (JS.digits_fuel n) n Hn) as Hdec.
  rewrite Forall_forall in Hdec.
  apply list_elem_of_In in Hin.
  exact (decimal_not_colon _ (Hdec _ Hin) eq_refl).
Qed.

(** The time read back from a challenge is the second it was issued in. *)
Lemma messageTime_of_challenge now address :
  1000 <= now ->
  ~ In ":"%char (list_ascii_of_string address) ->
  Blockchain.messageTime (Blockchain.requestMessageOwnershipVerification now address)
  = JS.Num (now / 1000).
Proof.
  intros Hn Haddr.
  unfold Blockchain.messageTime, Blockchain.requestMessageOwnershipVerification.
  rewrite seconds_string_toString by exact Hn.
  assert (Hq : 0 <= now / 1000) by (apply Z.div_pos; lia).
  rewrite !string_app_assoc.
  change (":" ++ JS.toString (now / 1000) ++ ":" ++ "starRegistry")%string
    with (String ":" (JS.toString (now / 1000) ++ String ":" "starRegistry")).
  rewrite split_prefix by exact Haddr.
  rewrite split_prefix by (apply toString_no_colon; exact Hq).
  simpl. apply parseInt_toString. exact Hq.
Qed.

(** The elapsed time in whole seconds of the clock. *)
Lemma elapsed_seconds now message m :
  1000 <= now ->
  Blockchain.messageTime message = JS.Num m ->
  elapsed now message = JS.Num (now / 1000 - m).
Proof.
  intros Hn Hm. unfold elapsed. rewrite currentTime_seconds, Hm by exact Hn. reflexivity.
Qed.

(** For a challenge issued at [issued] and submitted at [now], both in
    milliseconds, the elapsed time is the difference of the two seconds. *)
Lemma elapsed_of_challenge issued now address :
  1000 <= issued -> 1000 <= now ->
  ~ In ":"%char (list_ascii_of_string address) ->
  elapsed now (Blockchain.requestMessageOwnershipVerification issued address)
  = JS.Num (now / 1000 - issued / 1000).
Proof.
  intros Hi Hn Haddr. apply elapsed_seconds; [exact Hn|].
  apply messageTime_of_challenge; assumption.
Qed.

(** Looking a height up in a list whose heights count up from [k]. *)
Lemma filter_height_lookup (l : list Block.t) : forall (k : nat) (i : nat),
  (forall (j : nat) (b : Block.t), l !! j = Some b -> Block.height b = Z.of_nat (k + j)) ->
  head (List.filter (fun p => bool_decide (Block.height p = Z.of_nat (k + i))) l) = l !! i.
Proof.
  induction l as [|x l IH]; intros k i Hh; [reflexivity|].
  simpl. pose proof (Hh 0%nat x eq_refl) as Hx.
  destruct i as [|i].
  - rewrite bool_decide_eq_true_2 by exact Hx. reflexivity.
  - rewrite bool_decide_eq_false_2 by lia. simpl.
    replace (k + S i)%nat with (S k + i)%nat by lia.
    apply IH. intros j b Hb. rewrite (Hh (S j) b Hb). f_equal. lia.
Qed.

Lemma filter_height_negative (l : list Block.t) (h : Z) :
  (forall b, b ∈ l -> 0 <= Block.height b) -> h < 0 ->
  List.filter (fun p => bool_decide (Block.height p = h)) l = [].
Proof.
  intros Hall Hh. induction l as [|x l IH]; [reflexivity|]. simpl.
  rewrite bool_decide_eq_false_2.
  - apply IH. intros b Hb. apply Hall. right. exact Hb.
  - pose proof (Hall x ltac:(left)). lia.
Qed.

Section Properties.
Context `{Capabilities}.

(** *** Appending *)

Lemma sealed_height now h prev block : Block.height (sealed now h prev block) = h.
Proof. reflexivity. Qed.

Lemma sealed_previousBlockHash now h prev block :
  Block.previousBlockHash (sealed now h prev block) = prev.
Proof. reflexivity. Qed.

Lemma sealed_body now h prev block :
  Block.body (sealed now h prev block) = Block.body block.
Proof. reflexivity. Qed.

Lemma sealed_content now h prev block :
  Block.hash block = None ->
  Block.hash (sealed now h prev block)
  = Some (SHA256 (JSON_stringify (content (sealed now h prev block)))).
Proof.
  intros Hnone. destruct block as [bh bheight bbody btime bprev].
  simpl in Hnone. subst bh. reflexivity.
Qed.

(** The first append: no link is written, the candidate keeps the
    previous hash it came with. *)
Lemma _addBlock_empty now block :
  Blockchain._addBlock now block Blockchain.empty
  = (Fulfilled (sealed now 0 (Block.previousBlockHash block) block),
     Blockchain.mk [sealed now 0 (Block.previousBlockHash block) block] 0).
Proof. destruct block. reflexivity. Qed.

(** An append on a well-formed ledger links to the last block. *)
Lemma _addBlock_ok now block self :
  chain_ok self ->
  exists prev,
    last (Blockchain.chain self) = Some prev /\
    Blockchain._addBlock now block self
    = (Fulfilled (sealed now (Blockchain.height self + 1) (Block.hash prev) block),
       Blockchain.mk
         (Blockchain.chain self ++ [sealed now (Blockchain.height self + 1) (Block.hash prev) block])
         (Blockchain.height self + 1)).
Proof.
  intros [Hne _ _ _ Hh].
  destruct (last (Blockchain.chain self)) as [prev|] eqn:Hlast.
  2:{ apply last_None in Hlast. contradiction. }
  exists prev. split; [reflexivity|].
  rewrite last_lookup in Hlast.
  assert (Hlen : (0 < length (Blockchain.chain self))%nat).
  { destruct (Blockchain.chain self); [contradiction | simpl; lia]. }
  unfold Blockchain._addBlock, Blockchain.getChainHeight, Blockchain._addBlock_then.
  replace (Blockchain.height self >? -1) with true
    by (symmetry; apply Z.gtb_lt; lia).
  replace (Z.to_nat (Blockchain.height self)) with (pred (length (Blockchain.chain self)))
    by lia.
  rewrite Hlast. destruct block. reflexivity.
Qed.

(** Appending a sealed block at the next height, linked to the last
    block, keeps the ledger well formed. *)
Lemma chain_ok_snoc self prev b :
  chain_ok self ->
  last (Blockchain.chain self) = Some prev ->
  Block.height b = Blockchain.height self + 1 ->
  Block.previousBlockHash b = Block.hash prev ->
  chain_ok (Blockchain.mk (Blockchain.chain self ++ [b]) (Blockchain.height self + 1)).
Proof.
  intros [Hne Hhs Hls Hg Hh] Hlast Hbh Hbp.
  rewrite last_lookup in Hlast.
  assert (Hlen : (0 < length (Blockchain.chain self))%nat).
  { destruct (Blockchain.chain self); [contradiction | simpl; lia]. }
  constructor; simpl.
  - intros Hnil. apply app_eq_nil in Hnil as [_ Hnil]. discriminate.
  - intros i x Hi. apply lookup_app_Some in Hi as [Hi | [Hge Hi]].
    + eauto.
    + apply list_lookup_singleton_Some in Hi as [Hz ->]. lia.
  - intros i x p Hx Hp.
    apply lookup_app_Some in Hx as [Hx | [Hge Hx]].
    + apply lookup_app_Some in Hp as [Hp | [Hge' _]].
      * eauto.
      * apply lookup_lt_Some in Hx. lia.
    + apply list_lookup_singleton_Some in Hx as [Hz ->].
      apply lookup_app_Some in Hp as [Hp | [Hge' Hp]].
      * replace i with (pred (length (Blockchain.chain self))) in Hp by lia.
        rewrite Hlast in Hp. injection Hp as <-. exact Hbp.
      * apply list_lookup_singleton_Some in Hp as [Hz' _]. lia.
  - intros g Hg0. apply Hg. rewrite lookup_app_l in Hg0; [exact Hg0 | exact Hlen].
  - rewrite length_app. simpl. lia.
Qed.

Lemma chain_ok_constructor now : chain_ok (Blockchain.constructor now).
Proof.
  unfold Blockchain.constructor, Blockchain.initializeChain.
  change (bool_decide (Blockchain.height Blockchain.empty = -1)) with true.
  cbv iota. rewrite _addBlock_empty. simpl.
  constructor; simpl.
  - discriminate.
  - intros [|i] b Hb; simpl in Hb; [|discriminate].
    injection Hb as <-. reflexivity.
  - intros i b p Hb. discriminate.
  - intros g Hg. injection Hg as <-. split; reflexivity.
  - reflexivity.
Qed.

Lemma chain_ok_addBlock now block self :
  chain_ok self -> chain_ok (snd (Blockchain._addBlock now block self)).
Proof.
  intros Hok. destruct (_addBlock_ok now block self Hok) as (prev & Hlast & ->).
  simpl. eapply chain_ok_snoc; eauto.
Qed.

(** A submission either appends through [_addBlock] or leaves the ledger
    as it was. *)
Lemma submitStar_cases now now' address message signature star self :
  Blockchain.submitStar now now' address message signature star self
  = Blockchain._addBlock now' (Block_new (Block.StarData address message signature star)) self
  \/ snd (Blockchain.submitStar now now' address message signature star self) = self.
Proof.
  unfold Blockchain.submitStar.
  destruct (bitcoinMessage_verify message address signature) as [[|]|];
    try destruct (JS.lt _ _); auto.
Qed.

Lemma reachable_ok self : reachable self -> chain_ok self.
Proof.
  induction 1 as [now | now d self _ IH | now now' a m sg st self _ IH].
  - apply chain_ok_constructor.
  - apply chain_ok_addBlock, IH.
  - destruct (submitStar_cases now now' a m sg st self) as [-> | ->].
    + apply chain_ok_addBlock, IH.
    + exact IH.
Qed.

(** On a reachable ledger [getBlockByHeight] finds the block at that
    position, and nothing for a height outside the chain. *)
Lemma getBlockByHeight_reachable self (height : Z) :
  reachable self ->
  Blockchain.getBlockByHeight height self
  = (Fulfilled (if 0 <=? height then Blockchain.chain self !! Z.to_nat height else None), self).
Proof.
  intros Hr. destruct (reachable_ok self Hr) as [_ Hhs _ _ _].
  unfold Blockchain.getBlockByHeight. f_equal. f_equal.
  destruct (0 <=? height) eqn:Hsign.
  - apply Z.leb_le in Hsign.
    pose proof (filter_height_lookup (Blockchain.chain self) 0 (Z.to_nat height) Hhs) as Hl.
    simpl in Hl. rewrite Z2Nat.id in Hl by exact Hsign. exact Hl.
  - apply Z.leb_gt in Hsign. rewrite filter_height_negative; [reflexivity| |exact Hsign].
    intros b Hb. apply list_elem_of_lookup in Hb as [i Hi]. rewrite (Hhs i b Hi). lia.
Qed.
(** Every stored hash is the digest of the block's content. *)
Lemma sealed_hashes self :
  reachable self ->
  Forall (fun b => Block.hash b = Some (SHA256 (JSON_stringify (content b))))
         (Blockchain.chain self).
Proof.
  assert (Hadd : forall now d self,
    chain_ok self ->
    Forall (fun b => Block.hash b = Some (SHA256 (JSON_stringify (content b))))
           (Blockchain.chain self) ->
    Forall (fun b => Block.hash b = Some (SHA256 (JSON_stringify (content b))))
           (Blockchain.chain (snd (Blockchain._addBlock now (Block_new d) self)))).
  { intros now d st Hok Hall.
    destruct (_addBlock_ok now (Block_new d) st Hok) as (prev & _ & ->). simpl.
    apply Forall_app. split; [exact Hall|].
    constructor; [|constructor]. apply sealed_content. reflexivity. }
  induction 1 as [now | now d self Hr IH | now now' a m sg st self Hr IH].
  - unfold Blockchain.constructor, Blockchain.initializeChain.
    change (bool_decide (Blockchain.height Blockchain.empty = -1)) with true.
    cbv iota. rewrite _addBlock_empty. simpl.
    constructor; [|constructor]. reflexivity.
  - apply Hadd; [apply reachable_ok, Hr | exact IH].
  - destruct (submitStar_cases now now' a m sg st self) as [-> | ->].
    + apply Hadd; [apply reachable_ok, Hr | exact IH].
    + exact IH.
Qed.

(** *** Submitting a claim: the four ways line 132-154 can go *)

Lemma submitStar_throws now now' address message signature star self error_message :
  bitcoinMessage_verify message address signature = Throws error_message ->
  Blockchain.submitStar now now' address message signature star self
  = (Rejected (StringValue error_message), self).
Proof. intros Hv. unfold Blockchain.submitStar. rewrite Hv. reflexivity. Qed.

Lemma submitStar_stale now now' address message signature star self verified :
  bitcoinMessage_verify message address signature = Returns verified ->
  JS.lt (elapsed now message) (JS.Num 300) = false ->
  Blockchain.submitStar now now' address message signature star self
  = (Rejected ExpiredChallenge, self).
Proof.
  intros Hv Hlt. unfold Blockchain.submitStar. rewrite Hv.
  change (60 * 5) with 300. fold (elapsed now message). rewrite Hlt. reflexivity.
Qed.

Lemma submitStar_unverified now now' address message signature star self :
  bitcoinMessage_verify message address signature = Returns false ->
  JS.lt (elapsed now message) (JS.Num 300) = true ->
  Blockchain.submitStar now now' address message signature star self
  = (Rejected InvalidSignature, self).
Proof.
  intros Hv Hlt. unfold Blockchain.submitStar. rewrite Hv.
  change (60 * 5) with 300. fold (elapsed now message). rewrite Hlt. reflexivity.
Qed.

Lemma submitStar_accepted now now' address message signature star self :
  bitcoinMessage_verify message address signature = Returns true ->
  JS.lt (elapsed now message) (JS.Num 300) = true ->
  Blockchain.submitStar now now' address message signature star self
  = Blockchain._addBlock now' (Block_new (Block.StarData address message signature star)) self.
Proof.
  intros Hv Hlt. unfold Blockchain.submitStar. rewrite Hv.
  change (60 * 5) with 300. fold (elapsed now message). rewrite Hlt. reflexivity.
Qed.

(** A message without a second segment has no time: [parseInt] is applied
    to [undefined]. *)
Lemma messageTime_absent message :
  JS.split ":" message !! 1%nat = None -> Blockchain.messageTime message = JS.NaN.
Proof. intros Hs. unfold Blockchain.messageTime. rewrite Hs. reflexivity. Qed.

Lemma no_message_time_NaN message :
  no_message_time message <-> Blockchain.messageTime message = JS.NaN.
Proof.
  unfold no_message_time, Blockchain.messageTime.
  destruct (JS.split ":" message !! 1%nat); simpl; [reflexivity|].
  split; [reflexivity | constructor].
Qed.

Lemma elapsed_NaN now message :
  Blockchain.messageTime message = JS.NaN -> elapsed now message = JS.NaN.
Proof.
  intros Hm. unfold elapsed. rewrite Hm.
  destruct (Blockchain.currentTime now); reflexivity.
Qed.

(** *** The two methods that register callbacks *)

Lemma validate_register_all blocks c :
  fold_left Blockchain.validate_register blocks c
  = Blockchain.mkValidateCall
      (Blockchain.errorLog c) (Blockchain.previousBlockHash c)
      (Blockchain.validate_promise c)
      (Blockchain.validate_jobs c ++ List.map (fun b => (b, validate b)) blocks).
Proof.
  revert c. induction blocks as [|b blocks IH]; intros c; simpl.
  - rewrite app_nil_r. destruct c; reflexivity.
  - rewrite IH. simpl. rewrite <- app_assoc. reflexivity.
Qed.

(** When the executor of [validateChain] returns, the promise is
    fulfilled, nothing has been logged, and every callback is still
    waiting. *)
Lemma validateChain_executor_resolves self :
  Blockchain.validateChain_executor self
  = Blockchain.mkValidateCall [] None (Some (Fulfilled tt))
      (List.map (fun b => (b, validate b)) (Blockchain.chain self)).
Proof.
  unfold Blockchain.validateChain_executor.
  rewrite validate_register_all. reflexivity.
Qed.

Lemma validate_job_promise block v c :
  Blockchain.validate_promise (Blockchain.validate_job block v c)
  = Blockchain.validate_promise c.
Proof.
  unfold Blockchain.validate_job. destruct v; [|reflexivity].
  destruct (bool_decide _); reflexivity.
Qed.

Lemma validate_jobs_promise jobs c :
  Blockchain.validate_promise
    (fold_left (fun c job => Blockchain.validate_job (fst job) (snd job) c) jobs c)
  = Blockchain.validate_promise c.
Proof.
  revert c. induction jobs as [|j jobs IH]; intros c; simpl; [reflexivity|].
  rewrite IH. apply validate_job_promise.
Qed.

(** The callbacks never settle the promise: whatever they log, the call
    has already resolved, and with no value. *)
Lemma validateChain_always_resolves self :
  Blockchain.validate_promise (Blockchain.validateChain self) = Some (Fulfilled tt).
Proof.
  unfold Blockchain.validateChain, Blockchain.validateChain_jobs. simpl.
  rewrite validate_jobs_promise, validateChain_executor_resolves. reflexivity.
Qed.

Lemma stars_filter_keeps_nothing blocks c :
  Blockchain.stars_filter blocks c
  = ([], Blockchain.mkStarsCall
           (Blockchain.arrays c) (Blockchain.stars c) (Blockchain.stars_promise c)
           (Blockchain.stars_jobs c ++ List.map getBData blocks)).
Proof.
  revert c. induction blocks as [|b blocks IH]; intros c; simpl.
  - rewrite app_nil_r. destruct c; reflexivity.
  - rewrite IH. simpl. rewrite <- app_assoc. reflexivity.
Qed.

(** When the executor of [getStarsByWalletAddress] returns, the promise
    is fulfilled with the array [filter] made, that array is empty, and
    every decode callback is still waiting. *)
Lemma getStarsByWalletAddress_executor_resolves address self :
  Blockchain.getStarsByWalletAddress_executor address self
  = Blockchain.mkStarsCall [[]; []] 1 (Some (Fulfilled 1%nat))
      (List.map getBData (Blockchain.chain self)).
Proof.
  unfold Blockchain.getStarsByWalletAddress_executor.
  rewrite stars_filter_keeps_nothing. reflexivity.
Qed.

Lemma stars_jobs_run address jobs first entries p q :
  fold_left (fun c decoded => Blockchain.stars_job address decoded c) jobs
    (Blockchain.mkStarsCall [first; entries] 1 (Some p) q)
  = Blockchain.mkStarsCall
      [first; entries ++ flat_map (entry_of address) jobs] 1 (Some p) q.
Proof.
  revert entries. induction jobs as [|j jobs IH]; intros entries; simpl.
  - rewrite app_nil_r. reflexivity.
  - destruct j as [body|e]; simpl.
    + destruct (bool_decide (Block.address body = Some address)); simpl.
      * unfold Blockchain.stars_push. simpl. rewrite IH, <- app_assoc. reflexivity.
      * apply IH.
    + apply IH.
Qed.

(** Once the queue has run, the array the promise was resolved with holds
    the entries for the address, in chain order. *)
Lemma getStarsByWalletAddress_filled address self :
  Blockchain.getStarsByWalletAddress address self
  = Blockchain.mkStarsCall
      [[]; flat_map (fun b => entry_of address (getBData b)) (Blockchain.chain self)]
      1 (Some (Fulfilled 1%nat)) [].
Proof.
  unfold Blockchain.getStarsByWalletAddress, Blockchain.getStarsByWalletAddress_jobs.
  rewrite getStarsByWalletAddress_executor_resolves.
  cbv beta zeta. cbn [Blockchain.stars_jobs].
  rewrite stars_jobs_run. simpl.
  rewrite flat_map_concat_map, map_map, <- flat_map_concat_map. reflexivity.
Qed.

(** *** The statements about the ledger *)

(** C3. After the constructor's genesis append and after every later
    append, one call at a time: each block's height is its index, each
    block after the first names the hash of the block before it, the first
    block has height 0 and no previous hash, and the cached height is the
    length of the chain minus one. *)
Theorem append_invariant (self : Blockchain.t) :
  reachable self ->
  (forall (i : nat) (b : Block.t),
      Blockchain.chain self !! i = Some b -> Block.height b = Z.of_nat i) /\
  (forall (i : nat) (b p : Block.t),
      Blockchain.chain self !! S i = Some b ->
      Blockchain.chain self !! i = Some p ->
      Block.previousBlockHash b = Block.hash p) /\
  (exists g : Block.t,
      Blockchain.chain self !! 0%nat = Some g /\
      Block.height g = 0 /\ Block.previousBlockHash g = None) /\
  Blockchain.height self = Z.of_nat (length (Blockchain.chain self)) - 1.
Proof.
  intros Hr. destruct (reachable_ok self Hr) as [Hne Hhs Hls Hg Hh].
  repeat split; try assumption.
  destruct (Blockchain.chain self) as [|g rest] eqn:Hc; [contradiction|].
  exists g. split; [reflexivity|]. apply Hg. reflexivity.
Qed.

(** Every block of a reachable ledger passes self-validation. *)
Lemma reachable_selfValidate (self : Blockchain.t) (b : Block.t) :
  reachable self -> b ∈ Blockchain.chain self -> selfValidate b = true.
Proof.
  intros Hr Hin.
  pose proof (sealed_hashes self Hr) as Hall.
  rewrite Forall_forall in Hall.
  unfold selfValidate. apply bool_decide_eq_true_2, Hall, Hin.
Qed.

(** C9. Every block stored in the chain carries, as its hash, the digest
    of the serialization of its own content without the hash: serializing
    and digesting that content again gives the stored hash. *)
Theorem sealed_hash_reproducible (self : Blockchain.t) (b : Block.t) :
  reachable self ->
  b ∈ Blockchain.chain self ->
  Block.hash b = Some (SHA256 (JSON_stringify (content b))).
Proof.
  intros Hr Hin.
  pose proof (sealed_hashes self Hr) as Hall.
  rewrite Forall_forall in Hall. exact (Hall b Hin).
Qed.

(** C5. With a signature that verifies: when the elapsed time is 299
    seconds the submission is fulfilled with the new block, which is
    appended after the last block of the chain; when it is 300 seconds the
    submission is rejected as older than five minutes and the ledger is
    left as it was. *)
Theorem submitStar_freshness_boundary
    (now now' : Z) (address message signature star : string) (self : Blockchain.t) :
  reachable self ->
  bitcoinMessage_verify message address signature = Returns true ->
  (elapsed now message = JS.Num 299 ->
     exists prev : Block.t,
       last (Blockchain.chain self) = Some prev /\
       let block := sealed now' (Blockchain.height self + 1) (Block.hash prev)
                      (Block_new (Block.StarData address message signature star)) in
       Blockchain.submitStar now now' address message signature star self
       = (Fulfilled block,
          Blockchain.mk (Blockchain.chain self ++ [block]) (Blockchain.height self + 1))) /\
  (elapsed now message = JS.Num 300 ->
     Blockchain.submitStar now now' address message signature star self
     = (Rejected ExpiredChallenge, self)).
Proof.
  intros Hr Hv. split; intros He.
  - rewrite (submitStar_accepted _ _ _ _ _ _ _ Hv) by (rewrite He; reflexivity).
    destruct (_addBlock_ok now'
                (Block_new (Block.StarData address message signature star))
                self (reachable_ok self Hr)) as (prev & Hlast & Heq).
    exists prev. split; [exact Hlast | exact Heq].
  - apply (submitStar_stale _ _ _ _ _ _ _ true Hv). rewrite He. reflexivity.
Qed.

(** C6, as the code has it. When the elapsed time is 300 seconds or more
    and the signature check does not succeed: if the check returned false,
    the submission is rejected as older than five minutes, the age being
    tested before the result of the check is looked at; if the check threw,
    the submission is rejected with the message of the error, the [catch] of
    line 151 coming before any test of the age.  The ledger is left as it
    was. *)
Theorem submitStar_expired_not_verified
    (now now' : Z) (address message signature star : string) (self : Blockchain.t)
    (e : Z) :
  bitcoinMessage_verify message address signature <> Returns true ->
  elapsed now message = JS.Num e ->
  300 <= e ->
  Blockchain.submitStar now now' address message signature star self
  = (Rejected
       match bitcoinMessage_verify message address signature with
       | Throws error_message => StringValue error_message
       | Returns _ => ExpiredChallenge
       end,
     self).
Proof.
  intros Hfail He Hge.
  destruct (bitcoinMessage_verify message address signature) as [[|]|msg] eqn:Hv.
  - congruence.
  - apply (submitStar_stale _ _ _ _ _ _ _ false Hv).
    rewrite He. simpl. apply Z.ltb_ge. exact Hge.
  - apply submitStar_throws. exact Hv.
Qed.

(** C7. When the message is fresh and the signature check returns false,
    the submission is rejected with "Signature not verified" and the
    ledger is the one it was: same chain, same height. *)
Theorem submitStar_invalid_signature_no_append
    (now now' : Z) (address message signature star : string) (self : Blockchain.t)
    (e : Z) :
  bitcoinMessage_verify message address signature = Returns false ->
  elapsed now message = JS.Num e ->
  e < 300 ->
  Blockchain.submitStar now now' address message signature star self
  = (Rejected InvalidSignature, self).
Proof.
  intros Hv He Hlt. apply (submitStar_unverified _ _ _ _ _ _ _ Hv).
  rewrite He. simpl. apply Z.ltb_lt. exact Hlt.
Qed.

(** C8, as the code has it. When the second colon-delimited segment of
    the message is absent, or [parseInt] finds no integer at its start, the
    submission is rejected and the ledger is left as it was: with the
    message of the error if the signature check throws, and otherwise as
    older than five minutes. *)
Theorem submitStar_message_without_time
    (now now' : Z) (address message signature star : string) (self : Blockchain.t) :
  no_message_time message ->
  Blockchain.submitStar now now' address message signature star self
  = (Rejected
       match bitcoinMessage_verify message address signature with
       | Throws error_message => StringValue error_message
       | Returns _ => ExpiredChallenge
       end,
     self).
Proof.
  intros Hno. apply no_message_time_NaN in Hno.
  destruct (bitcoinMessage_verify message address signature) as [v|msg] eqn:Hv.
  - apply (submitStar_stale _ _ _ _ _ _ _ v Hv).
    rewrite (elapsed_NaN now message Hno). reflexivity.
  - apply submitStar_throws. exact Hv.
Qed.

(** C10. [getChainHeight], [getBlockByHash] and [getBlockByHeight] are
    fulfilled for every argument and every ledger, and leave the chain,
    the cached height and every stored block as they were. *)
Theorem reads_leave_ledger (self : Blockchain.t) (hash : option string) (height : Z) :
  Blockchain.getChainHeight self = (Fulfilled (Blockchain.height self), self) /\
  (exists found, Blockchain.getBlockByHash hash self = (Fulfilled found, self)) /\
  (exists found, Blockchain.getBlockByHeight height self = (Fulfilled found, self)).
Proof.
  split; [reflexivity|]. split; eexists; reflexivity.
Qed.

(** C4, as the code has it. After a block whose previous hash matches,
    the expected previous hash is that block's hash.  It then stays there
    through every following block that names another hash: each of them is
    logged as a mismatch, and none of them moves the expected hash to its
    own. *)
Theorem expected_hash_advances_only_on_match
    (c : Blockchain.ValidateCall) (block : Block.t) (v : bool)
    (jobs : list (Block.t * Promise.settlement bool thrown)) :
  Blockchain.previousBlockHash c = Block.previousBlockHash block ->
  Forall (fun job => (exists w, snd job = Fulfilled w) /\
                     Block.previousBlockHash (fst job) <> Block.hash block) jobs ->
  let c1 := Blockchain.validate_job block (Fulfilled v) c in
  let c2 := fold_left (fun c job => Blockchain.validate_job (fst job) (snd job) c) jobs c1 in
  Blockchain.previousBlockHash c1 = Block.hash block /\
  Blockchain.errorLog c1 = Blockchain.errorLog c /\
  Blockchain.previousBlockHash c2 = Block.hash block /\
  Blockchain.errorLog c2 = Blockchain.errorLog c ++ List.map (fun job => mismatch (fst job)) jobs.
Proof.
  intros Hmatch Hjobs c1 c2.
  assert (H1 : Blockchain.previousBlockHash c1 = Block.hash block /\
               Blockchain.errorLog c1 = Blockchain.errorLog c).
  { subst c1. unfold Blockchain.validate_job.
    rewrite bool_decide_eq_true_2 by exact Hmatch. split; reflexivity. }
  destruct H1 as [Hp1 Hl1]. split; [exact Hp1|]. split; [exact Hl1|].
  subst c2. rewrite <- Hl1. clearbody c1. clear Hl1 Hmatch c.
  revert c1 Hp1. induction Hjobs as [|[b r] jobs [[w Hw] Hne] _ IH]; intros c1 Hp1.
  - simpl. rewrite app_nil_r. split; [exact Hp1 | reflexivity].
  - simpl in Hw, Hne |- *. subst r.
    assert (Hstep : Blockchain.validate_job b (Fulfilled w) c1
                    = Blockchain.mkValidateCall
                        (Blockchain.errorLog c1 ++ [mismatch b])
                        (Blockchain.previousBlockHash c1)
                        (Blockchain.validate_promise c1) (Blockchain.validate_jobs c1)).
    { unfold Blockchain.validate_job.
      rewrite bool_decide_eq_false_2; [reflexivity|]. rewrite Hp1. congruence. }
    rewrite Hstep.
    match goal with |- context [fold_left _ jobs ?c'] => destruct (IH c' Hp1) as [IHp IHl] end.
    simpl in IHl.
    split; [exact IHp|]. rewrite IHl, <- app_assoc. reflexivity.
Qed.

End Properties.

(* ===================================================================== *)
(** ** The statements at sample ledgers                                    *)
(* ===================================================================== *)

(** The sample ledgers are reachable. *)
Lemma ledger0_reachable : reachable (H := Fake.caps) Fake.ledger0.
Proof. apply reachable_constructor. Defined.

Lemma ledger1_reachable : reachable (H := Fake.caps) Fake.ledger1.
Proof. apply reachable_submitStar, reachable_constructor. Defined.

Example ledger1_chain : Blockchain.chain Fake.ledger1 = [Fake.genesis_block; Fake.claim_block].
Proof. vm_compute. reflexivity. Qed.

(** Two appends that both read the height before either callback has run:
    the second block gets the height and the link of the first. *)
Example interleaved_appends_share_height :
  let b1 := Block_new (H := Fake.caps) (Block.StarData "a" "m" "s" "star1") in
  let b2 := Block_new (H := Fake.caps) (Block.StarData "a" "m" "s" "star2") in
  let h := Blockchain.height Fake.ledger0 in
  let s1 := snd (Blockchain._addBlock_then (H := Fake.caps) 1700000010000 b1 h Fake.ledger0) in
  let s2 := snd (Blockchain._addBlock_then (H := Fake.caps) 1700000010000 b2 h s1) in
  List.map Block.height (Blockchain.chain s2) = [0; 1; 1] /\
  Blockchain.height s2 = 2 /\
  List.map Block.previousBlockHash (Blockchain.chain s2)
  = [None; Block.hash Fake.genesis_block; Block.hash Fake.genesis_block].
Proof. vm_compute. repeat split; reflexivity. Qed.

(** C3 at the ledger after one accepted claim. *)
Lemma append_invariant_witness :
  reachable (H := Fake.caps) Fake.ledger1 /\
  (forall (i : nat) (b : Block.t),
      Blockchain.chain Fake.ledger1 !! i = Some b -> Block.height b = Z.of_nat i) /\
  (forall (i : nat) (b p : Block.t),
      Blockchain.chain Fake.ledger1 !! S i = Some b ->
      Blockchain.chain Fake.ledger1 !! i = Some p ->
      Block.previousBlockHash b = Block.hash p) /\
  (exists g : Block.t,
      Blockchain.chain Fake.ledger1 !! 0%nat = Some g /\
      Block.height g = 0 /\ Block.previousBlockHash g = None) /\
  Blockchain.height Fake.ledger1 = Z.of_nat (length (Blockchain.chain Fake.ledger1)) - 1.
Proof.
  split.
  - exact ledger1_reachable.
  - exact (append_invariant (H := Fake.caps) Fake.ledger1 ledger1_reachable).
Defined.

(** C9 at the claim block of that ledger. *)
Lemma sealed_hash_reproducible_witness :
  Fake.claim_block ∈ Blockchain.chain Fake.ledger1 /\
  Block.hash Fake.claim_block
  = Some (Fake.SHA256 (Fake.JSON_stringify (content Fake.claim_block))).
Proof.
  assert (Hin : Fake.claim_block ∈ Blockchain.chain Fake.ledger1).
  { apply list_elem_of_lookup. exists 1%nat. vm_compute. reflexivity. }
  split.
  - exact Hin.
  - exact (sealed_hash_reproducible (H := Fake.caps) Fake.ledger1 Fake.claim_block
             ledger1_reachable Hin).
Defined.

(** C5 on a new ledger: a challenge of second 1700000000 submitted 299 and
    300 seconds later. *)
Lemma submitStar_freshness_boundary_witness :
  (exists block prev,
     last (Blockchain.chain Fake.ledger0) = Some prev /\
     Blockchain.submitStar (H := Fake.caps) 1700000299000 1700000299500
       Fake.addressA Fake.messageA Fake.signatureA Fake.starA Fake.ledger0
     = (Fulfilled block, Blockchain.mk (Blockchain.chain Fake.ledger0 ++ [block]) 1)) /\
  Blockchain.submitStar (H := Fake.caps) 1700000300000 1700000300500
    Fake.addressA Fake.messageA Fake.signatureA Fake.starA Fake.ledger0
  = (Rejected ExpiredChallenge, Fake.ledger0).
Proof.
  assert (Hv : bitcoinMessage_verify (Capabilities := Fake.caps)
                 Fake.messageA Fake.addressA Fake.signatureA = Returns true)
    by (vm_compute; reflexivity).
  split.
  - destruct (submitStar_freshness_boundary (H := Fake.caps)
                1700000299000 1700000299500
                Fake.addressA Fake.messageA Fake.signatureA Fake.starA Fake.ledger0
                ledger0_reachable Hv) as [Hfresh _].
    destruct Hfresh as (prev & Hlast & Heq); [vm_compute; reflexivity|].
    eexists. exists prev. split; [exact Hlast | exact Heq].
  - destruct (submitStar_freshness_boundary (H := Fake.caps)
                1700000300000 1700000300500
                Fake.addressA Fake.messageA Fake.signatureA Fake.starA Fake.ledger0
                ledger0_reachable Hv) as [_ Hstale].
    apply Hstale. vm_compute. reflexivity.
Defined.

(** C6, as the code has it, on a new ledger, 500 seconds after the
    challenge: a forged signature, for which the check returns false, and an
    empty one, for which it throws. *)
Lemma submitStar_expired_not_verified_witness :
  Blockchain.submitStar (H := Fake.caps) 1700000500000 1700000500500
    Fake.addressA Fake.messageA "forged" Fake.starA Fake.ledger0
  = (Rejected ExpiredChallenge, Fake.ledger0) /\
  Blockchain.submitStar (H := Fake.caps) 1700000500000 1700000500500
    Fake.addressA Fake.messageA "" Fake.starA Fake.ledger0
  = (Rejected (StringValue "Invalid signature length"), Fake.ledger0).
Proof.
  split.
  - apply (submitStar_expired_not_verified (H := Fake.caps)
             1700000500000 1700000500500
             Fake.addressA Fake.messageA "forged" Fake.starA Fake.ledger0 500).
    + intros Heq. vm_compute in Heq. discriminate Heq.
    + vm_compute. reflexivity.
    + lia.
  - apply (submitStar_expired_not_verified (H := Fake.caps)
             1700000500000 1700000500500
             Fake.addressA Fake.messageA "" Fake.starA Fake.ledger0 500).
    + intros Heq. vm_compute in Heq. discriminate Heq.
    + vm_compute. reflexivity.
    + lia.
Defined.

(** C6, as stated, fails: a submission made 500 seconds after its challenge,
    with a signature on which the check throws, is expired and its
    verification fails, yet it is rejected with the message of the error and
    not as older than five minutes. *)
Lemma expired_submission_rejected_with_check_error :
  elapsed 1700000500000 Fake.messageA = JS.Num 500 /\
  bitcoinMessage_verify (Capabilities := Fake.caps) Fake.messageA Fake.addressA ""
  = Throws "Invalid signature length" /\
  exists e,
    Blockchain.submitStar (H := Fake.caps) 1700000500000 1700000500500
      Fake.addressA Fake.messageA "" Fake.starA Fake.ledger0
    = (Rejected e, Fake.ledger0) /\
    e = StringValue "Invalid signature length" /\
    e <> ExpiredChallenge /\
    kind_of e = Some VerificationError_kind.
Proof.
  split; [vm_compute; reflexivity|].
  split; [vm_compute; reflexivity|].
  exists (StringValue "Invalid signature length").
  split; [vm_compute; reflexivity|].
  split; [reflexivity|].
  split; [discriminate | reflexivity].
Qed.

(** C7 on a new ledger: a forged signature, 10 seconds after the
    challenge. *)
Lemma submitStar_invalid_signature_no_append_witness :
  Blockchain.submitStar (H := Fake.caps) 1700000010000 1700000010500
    Fake.addressA Fake.messageA "forged" Fake.starA Fake.ledger0
  = (Rejected InvalidSignature, Fake.ledger0).
Proof.
  apply (submitStar_invalid_signature_no_append (H := Fake.caps)
           1700000010000 1700000010500
           Fake.addressA Fake.messageA "forged" Fake.starA Fake.ledger0 10).
  - vm_compute. reflexivity.
  - vm_compute. reflexivity.
  - lia.
Defined.

(** C8, as the code has it, on a message whose second segment is a word. *)
Lemma submitStar_message_without_time_witness :
  no_message_time Fake.message_bad_time /\
  Blockchain.submitStar (H := Fake.caps) 1700000010000 1700000010500
    Fake.addressA Fake.message_bad_time Fake.signature_bad_time Fake.starA Fake.ledger0
  = (Rejected ExpiredChallenge, Fake.ledger0).
Proof.
  assert (Hno : no_message_time Fake.message_bad_time) by (vm_compute; reflexivity).
  split.
  - exact Hno.
  - exact (submitStar_message_without_time (H := Fake.caps)
             1700000010000 1700000010500
             Fake.addressA Fake.message_bad_time Fake.signature_bad_time Fake.starA
             Fake.ledger0 Hno).
Defined.

(** C8, as stated, fails: a submission whose message has no second segment,
    and one whose second segment is not a number, both with a signature that
    verifies, are rejected with the very string of an expired challenge; the
    class has no rejection for a malformed message.  And a second segment
    that only starts with digits is read as those digits: the submission is
    accepted. *)
Lemma malformed_message_reported_as_expired :
  (JS.split ":" Fake.message_no_time !! 1%nat = None /\
   exists e,
     fst (Blockchain.submitStar (H := Fake.caps) 1700000010000 1700000010500
            Fake.addressA Fake.message_no_time Fake.signature_no_time Fake.starA
            Fake.ledger0) = Rejected e /\
     kind_of e = Some ExpiredChallenge_kind /\
     kind_of e <> Some MalformedMessage_kind) /\
  (JS.split ":" Fake.message_bad_time !! 1%nat = Some "soon"%string /\
   exists e,
     fst (Blockchain.submitStar (H := Fake.caps) 1700000010000 1700000010500
            Fake.addressA Fake.message_bad_time Fake.signature_bad_time Fake.starA
            Fake.ledger0) = Rejected e /\
     kind_of e = Some ExpiredChallenge_kind /\
     kind_of e <> Some MalformedMessage_kind) /\
  (JS.split ":" Fake.message_mixed_time !! 1%nat = Some "1700000000abc"%string /\
   exists block,
     fst (Blockchain.submitStar (H := Fake.caps) 1700000010000 1700000010500
            Fake.addressA Fake.message_mixed_time Fake.signature_mixed_time Fake.starA
            Fake.ledger0) = Fulfilled block).
Proof.
  split; [|split].
  - split; [vm_compute; reflexivity|].
    exists ExpiredChallenge. split; [vm_compute; reflexivity|].
    split; [reflexivity | discriminate].
  - split; [vm_compute; reflexivity|].
    exists ExpiredChallenge. split; [vm_compute; reflexivity|].
    split; [reflexivity | discriminate].
  - split; [vm_compute; reflexivity|].
    eexists. vm_compute. reflexivity.
Qed.

(** C4, as the code has it, on the chain with one broken link: the genesis
    block matches, the two blocks after it are logged. *)
Lemma expected_hash_advances_only_on_match_witness :
  let c := Blockchain.mkValidateCall [] None (Some (Fulfilled tt)) [] in
  let c1 := Blockchain.validate_job Fake.genesis_block (Fulfilled true) c in
  let jobs := [(Fake.unlinked, Fulfilled true); (Fake.follower, Fulfilled true)] in
  let c2 := fold_left (fun c job => Blockchain.validate_job (fst job) (snd job) c) jobs c1 in
  Blockchain.previousBlockHash c1 = Block.hash Fake.genesis_block /\
  Blockchain.errorLog c1 = [] /\
  Blockchain.previousBlockHash c2 = Block.hash Fake.genesis_block /\
  Blockchain.errorLog c2 = [mismatch Fake.unlinked; mismatch Fake.follower].
Proof.
  apply (expected_hash_advances_only_on_match
           (Blockchain.mkValidateCall [] None (Some (Fulfilled tt)) [])
           Fake.genesis_block true
           [(Fake.unlinked, Fulfilled true); (Fake.follower, Fulfilled true)]).
  - vm_compute. reflexivity.
  - repeat constructor; try (exists true; reflexivity);
      intros Heq; vm_compute in Heq; discriminate Heq.
Defined.

(** C4, as stated, fails: in a chain of three blocks that each validate on
    their own, where only the second does not name the hash of its
    predecessor, the callbacks log the second block and the third as well,
    although the third names the hash of the second; after the second
    block the expected hash is still the first block's. *)
Lemma one_broken_link_is_logged_twice :
  Blockchain.chain Fake.broken_link = [Fake.genesis_block; Fake.unlinked; Fake.follower] /\
  Forall (fun b => validate (Capabilities := Fake.caps) b = Fulfilled true)
         (Blockchain.chain Fake.broken_link) /\
  Block.previousBlockHash Fake.genesis_block = None /\
  Block.previousBlockHash Fake.unlinked <> Block.hash Fake.genesis_block /\
  Block.previousBlockHash Fake.follower = Block.hash Fake.unlinked /\
  Blockchain.previousBlockHash
    (Blockchain.validate_job Fake.unlinked (Fulfilled true)
       (Blockchain.mkValidateCall [] (Block.hash Fake.genesis_block) (Some (Fulfilled tt)) []))
  <> Block.hash Fake.unlinked /\
  Blockchain.errorLog (Blockchain.validateChain (H := Fake.caps) Fake.broken_link)
  = [mismatch Fake.unlinked; mismatch Fake.follower].
Proof.
  split; [reflexivity|].
  split; [repeat constructor|].
  split; [reflexivity|].
  split; [intros Heq; vm_compute in Heq; discriminate Heq|].
  split; [reflexivity|].
  split; [intros Heq; vm_compute in Heq; discriminate Heq|].
  vm_compute. reflexivity.
Qed.

(** C1 at a tampered ledger. The body of the claim block of [ledger1] has
    been overwritten, so the block no longer validates.  When the executor
    of [validateChain] returns, the promise is already fulfilled, with no
    value, the log is empty and both validations are still waiting; the
    callbacks then log the block, and the promise stays fulfilled. *)
Theorem validateChain_resolves_before_validating :
  exists b,
    Blockchain.chain Fake.tampered !! 1%nat = Some b /\
    selfValidate (H := Fake.caps) b = false /\
    validate (Capabilities := Fake.caps) b = Rejected (StringValue "invalid block") /\
    (let c := Blockchain.validateChain_executor (H := Fake.caps) Fake.tampered in
     Blockchain.validate_promise c = Some (Fulfilled tt) /\
     Blockchain.errorLog c = [] /\
     length (Blockchain.validate_jobs c) = 2%nat) /\
    (let c := Blockchain.validateChain (H := Fake.caps) Fake.tampered in
     Blockchain.validate_promise c = Some (Fulfilled tt) /\
     Blockchain.errorLog c = [Blockchain.mkErrorRecord b "Block validation fails"]).
Proof.
  eexists. split; [vm_compute; reflexivity|].
  repeat split; vm_compute; reflexivity.
Qed.

(** C2 at a ledger with one claim. [ledger1] holds the genesis block and
    one claim block for [addressA].  When the executor of
    [getStarsByWalletAddress] returns, the promise is already fulfilled with
    the array [filter] returned, that array is empty, and both decode
    callbacks are still waiting; the entry for [addressA] is pushed into that
    array only when the callbacks run. *)
Theorem getStarsByWalletAddress_resolves_before_decoding :
  (let c := Blockchain.getStarsByWalletAddress_executor (H := Fake.caps) Fake.addressA Fake.ledger1 in
   exists r,
     Blockchain.stars_promise c = Some (Fulfilled r) /\
     Blockchain.array_of c r = [] /\
     length (Blockchain.stars_jobs c) = 2%nat) /\
  (let c := Blockchain.getStarsByWalletAddress (H := Fake.caps) Fake.addressA Fake.ledger1 in
   exists r,
     Blockchain.stars_promise c = Some (Fulfilled r) /\
     Blockchain.array_of c r
     = [Blockchain.StarElement (Blockchain.mkStarEntry Fake.addressA (Some Fake.starA))]).
Proof.
  split; exists 1%nat; vm_compute; repeat split; reflexivity.
Qed.

(* ===================================================================== *)
(** ** Further properties of the class                                     *)
(* ===================================================================== *)

Section MoreClock.
Context `{Capabilities}.

(** *** Challenges and the clock *)

(** A clock reading of at most three digits has no seconds left after the
    slice. *)
Lemma seconds_string_short now :
  0 <= now < 1000 -> Blockchain.seconds_string now = ""%string.
Proof.
  intros Hn. unfold Blockchain.seconds_string, JS.toString, JS.slice_0_neg.
  replace (now <? 0) with false by (symmetry; apply Z.ltb_ge; lia).
  rewrite list_ascii_of_string_of_list_ascii.
  assert (Hlen : (length (rev (JS.digits_le (JS.digits_fuel now) now)) <= 3)%nat).
  { rewrite length_rev.
    destruct (Z_lt_ge_dec now 10) as [H10|H10].
    - unfold JS.digits_fuel. cbn [JS.digits_le].
      replace (now <? 10) with true by (symmetry; apply Z.ltb_lt; lia). simpl. lia.
    - rewrite digits_step by lia. cbn [length].
      assert (Hq : 0 <= now / 10 < 100).
      { split; [apply Z.div_pos; lia | apply Z.div_lt_upper_bound; lia]. }
      destruct (Z_lt_ge_dec (now / 10) 10) as [H100|H100].
      + unfold JS.digits_fuel. cbn [JS.digits_le].
        replace (now / 10 <? 10) with true by (symmetry; apply Z.ltb_lt; lia). simpl. lia.
      + rewrite digits_step by lia. cbn [length].
        assert (Hq' : 0 <= now / 10 / 10 < 10).
        { split; [apply Z.div_pos; lia | apply Z.div_lt_upper_bound; lia]. }
        unfold JS.digits_fuel. cbn [JS.digits_le].
        replace (now / 10 / 10 <? 10) with true by (symmetry; apply Z.ltb_lt; lia).
        simpl. lia. }
  replace (length (rev (JS.digits_le (JS.digits_fuel now) now)) - 3)%nat with 0%nat by lia.
  reflexivity.
Qed.

(** X1. A challenge issued for an address without a colon splits into the
    address, the decimal seconds of the clock and the word [starRegistry],
    and the time [submitStar] reads back from it is that second. *)
Theorem challenge_round_trip (now : Z) (address : string) :
  1000 <= now ->
  ~ In ":"%char (list_ascii_of_string address) ->
  JS.split ":" (Blockchain.requestMessageOwnershipVerification now address)
  = [address; JS.toString (now / 1000); "starRegistry"%string] /\
  Blockchain.messageTime (Blockchain.requestMessageOwnershipVerification now address)
  = JS.Num (now / 1000).
Proof.
  intros Hn Haddr.
  assert (Hq : 0 <= now / 1000) by (apply Z.div_pos; lia).
  assert (Hsplit :
    JS.split ":" (Blockchain.requestMessageOwnershipVerification now address)
    = [address; JS.toString (now / 1000); "starRegistry"%string]).
  { unfold Blockchain.requestMessageOwnershipVerification.
    rewrite seconds_string_toString by exact Hn.
    rewrite !string_app_assoc.
    change (":" ++ JS.toString (now / 1000) ++ ":" ++ "starRegistry")%string
      with (String ":" (JS.toString (now / 1000) ++ String ":" "starRegistry")).
    rewrite split_prefix by exact Haddr.
    rewrite split_prefix by (apply toString_no_colon; exact Hq).
    reflexivity. }
  split; [exact Hsplit|].
  unfold Blockchain.messageTime. rewrite Hsplit. simpl.
  apply parseInt_toString. exact Hq.
Qed.

(** X3. While the clock reads less than one second (fewer than four
    digits of milliseconds), the current time of line 131 is [NaN], and a
    submission whose signature check returns is rejected as older than five
    minutes whatever its message and signature. *)
Theorem submitStar_before_first_second
    (now now' : Z) (address message signature star : string) (self : Blockchain.t)
    (verified : bool) :
  0 <= now < 1000 ->
  bitcoinMessage_verify message address signature = Returns verified ->
  Blockchain.currentTime now = JS.NaN /\
  Blockchain.submitStar now now' address message signature star self
  = (Rejected ExpiredChallenge, self).
Proof.
  intros Hn Hv.
  assert (Hc : Blockchain.currentTime now = JS.NaN).
  { unfold Blockchain.currentTime. rewrite seconds_string_short by exact Hn. reflexivity. }
  split; [exact Hc|].
  apply (submitStar_stale _ _ _ _ _ _ _ verified Hv).
  unfold elapsed. rewrite Hc. reflexivity.
Qed.

(** X4. A challenge issued at [issued] and submitted at [now] with a
    signature that verifies is handed to [_addBlock] when fewer than 300
    whole seconds lie between the two clock seconds, and is rejected as
    older than five minutes otherwise. *)
Theorem challenge_accepted_within_five_minutes
    (issued now now' : Z) (address signature star : string) (self : Blockchain.t) :
  1000 <= issued -> 1000 <= now ->
  ~ In ":"%char (list_ascii_of_string address) ->
  let message := Blockchain.requestMessageOwnershipVerification issued address in
  bitcoinMessage_verify message address signature = Returns true ->
  Blockchain.submitStar now now' address message signature star self
  = if now / 1000 - issued / 1000 <? 300
    then Blockchain._addBlock now'
           (Block_new (Block.StarData address message signature star)) self
    else (Rejected ExpiredChallenge, self).
Proof.
  intros Hi Hn Haddr message Hv.
  pose proof (elapsed_of_challenge issued now address Hi Hn Haddr) as He.
  fold message in He.
  destruct (now / 1000 - issued / 1000 <? 300) eqn:Hlt.
  - apply submitStar_accepted; [exact Hv|]. rewrite He. exact Hlt.
  - apply (submitStar_stale _ _ _ _ _ _ _ true Hv). rewrite He. exact Hlt.
Qed.

End MoreClock.

Section MoreLedger.
Context `{Capabilities}.

(** *** Appending, on any ledger *)

(** What [_addBlock] does on an arbitrary ledger, by the test of line 73
    and the array read of line 74. *)
Lemma _addBlock_result now block self :
  Blockchain._addBlock now block self
  = if Blockchain.height self >? -1 then
      match Blockchain.chain self !! Z.to_nat (Blockchain.height self) with
      | Some prev =>
          (Fulfilled (sealed now (Blockchain.height self + 1) (Block.hash prev) block),
           Blockchain.mk
             (Blockchain.chain self
                ++ [sealed now (Blockchain.height self + 1) (Block.hash prev) block])
             (Blockchain.height self + 1))
      | None =>
          (Rejected (ErrorObject "Cannot read properties of undefined (reading 'hash')"),
           self)
      end
    else
      (Fulfilled (sealed now (Blockchain.height self + 1)
                    (Block.previousBlockHash block) block),
       Blockchain.mk
         (Blockchain.chain self
            ++ [sealed now (Blockchain.height self + 1)
                  (Block.previousBlockHash block) block])
         (Blockchain.height self + 1)).
Proof.
  unfold Blockchain._addBlock, Blockchain.getChainHeight, Blockchain._addBlock_then.
  destruct block as [bh bheight bbody btime bprev].
  destruct (Blockchain.height self >? -1).
  - destruct (Blockchain.chain self !! Z.to_nat (Blockchain.height self)); reflexivity.
  - reflexivity.
Qed.

(** X5. On any ledger, [_addBlock] of a newly constructed block either
    stores exactly one block at the end of the chain, with the cached height
    plus one as its height, the encoded payload, and the cached height raised
    by one, or it rejects and leaves the ledger as it was; it rejects exactly
    when the cached height is not negative and the chain has no block at
    that index. *)
Theorem _addBlock_appends_or_rejects (now : Z) (d : Block.data) (self : Blockchain.t) :
  (exists b,
     Blockchain._addBlock now (Block_new d) self
     = (Fulfilled b,
        Blockchain.mk (Blockchain.chain self ++ [b]) (Blockchain.height self + 1)) /\
     Block.height b = Blockchain.height self + 1 /\
     Block.body b = encode d /\
     (Blockchain.height self < 0 \/
      is_Some (Blockchain.chain self !! Z.to_nat (Blockchain.height self)))) \/
  (exists e,
     Blockchain._addBlock now (Block_new d) self = (Rejected e, self) /\
     0 <= Blockchain.height self /\
     Blockchain.chain self !! Z.to_nat (Blockchain.height self) = None).
Proof.
  rewrite _addBlock_result.
  destruct (Blockchain.height self >? -1) eqn:Hgt.
  - apply Z.gtb_lt in Hgt.
    destruct (Blockchain.chain self !! Z.to_nat (Blockchain.height self)) as [prev|] eqn:Hl.
    + left. eexists. split; [reflexivity|]. repeat split. right. eauto.
    + right. eexists. split; [reflexivity|]. split; [lia | reflexivity].
  - left. eexists. split; [reflexivity|]. repeat split. left.
    destruct (Z.gtb_spec (Blockchain.height self) (-1)); [discriminate | lia].
Qed.

(** X6. On any ledger, a submission that is rejected leaves the ledger as
    it was, and a submission that is fulfilled has stored exactly the block
    it is fulfilled with, at the end of the chain: no call removes or
    changes a stored block. *)
Theorem submitStar_append_only
    (now now' : Z) (address message signature star : string) (self : Blockchain.t) :
  match Blockchain.submitStar now now' address message signature star self with
  | (Rejected _, self') => self' = self
  | (Fulfilled block, self') =>
      self' = Blockchain.mk (Blockchain.chain self ++ [block]) (Blockchain.height self + 1)
  end.
Proof.
  unfold Blockchain.submitStar.
  destruct (bitcoinMessage_verify message address signature) as [[|]|]; try reflexivity.
  - destruct (JS.lt _ _); [|reflexivity].
    rewrite _addBlock_result.
    destruct (Blockchain.height self >? -1); [|reflexivity].
    destruct (Blockchain.chain self !! Z.to_nat (Blockchain.height self)); reflexivity.
  - destruct (JS.lt _ _); reflexivity.
Qed.

(** X7. A submission is fulfilled only if the signature check returned
    true and the elapsed time is a number below 300; the block it is
    fulfilled with carries the encoded claim and the next height. *)
Theorem submitStar_fulfilled_sound
    (now now' : Z) (address message signature star : string) (self : Blockchain.t)
    (block : Block.t) :
  fst (Blockchain.submitStar now now' address message signature star self) = Fulfilled block ->
  bitcoinMessage_verify message address signature = Returns true /\
  (exists e, elapsed now message = JS.Num e /\ e < 300) /\
  Block.body block = encode (Block.StarData address message signature star) /\
  Block.height block = Blockchain.height self + 1.
Proof.
  unfold Blockchain.submitStar. change (60 * 5) with 300. fold (elapsed now message).
  destruct (bitcoinMessage_verify message address signature) as [[|]|]; simpl.
  - destruct (elapsed now message) as [|e] eqn:He; simpl; [discriminate|].
    destruct (e <? 300) eqn:Hlt; [|discriminate].
    apply Z.ltb_lt in Hlt. rewrite _addBlock_result.
    intros Hf. split; [reflexivity|]. split; [eauto|].
    destruct (Blockchain.height self >? -1).
    + destruct (Blockchain.chain self !! Z.to_nat (Blockchain.height self));
        simpl in Hf; [|discriminate]. injection Hf as <-. split; reflexivity.
    + simpl in Hf. injection Hf as <-. split; reflexivity.
  - destruct (JS.lt _ _); discriminate.
  - discriminate.
Qed.

(** X8. On a reachable ledger, every submission with a signature that
    verifies and an elapsed time below 300 seconds is accepted, a message
    dated in the future (negative elapsed time) included: the new block is
    stored after the last block and names its hash. *)
Theorem submitStar_accepts_every_fresh_claim
    (now now' : Z) (address message signature star : string) (self : Blockchain.t)
    (e : Z) :
  reachable self ->
  bitcoinMessage_verify message address signature = Returns true ->
  elapsed now message = JS.Num e ->
  e < 300 ->
  exists prev block,
    last (Blockchain.chain self) = Some prev /\
    Blockchain.submitStar now now' address message signature star self
    = (Fulfilled block,
       Blockchain.mk (Blockchain.chain self ++ [block]) (Blockchain.height self + 1)) /\
    Block.previousBlockHash block = Block.hash prev /\
    Block.height block = Z.of_nat (length (Blockchain.chain self)).
Proof.
  intros Hr Hv He Hlt.
  rewrite (submitStar_accepted _ _ _ _ _ _ _ Hv)
    by (rewrite He; simpl; apply Z.ltb_lt; exact Hlt).
  pose proof (reachable_ok self Hr) as Hok.
  destruct (_addBlock_ok now' (Block_new (Block.StarData address message signature star))
              self Hok) as (prev & Hlast & Heq).
  exists prev. eexists. split; [exact Hlast|]. split; [exact Heq|].
  split; [reflexivity|]. rewrite sealed_height, (ok_height self Hok). lia.
Qed.

(** X9. A new ledger holds exactly one block: the genesis block, with height
    0, no previous hash, the encoded genesis payload and the seconds of the
    clock as its time; the block validates and the cached height is 0. *)
Theorem constructor_genesis (now : Z) :
  exists g,
    Blockchain.constructor now = Blockchain.mk [g] 0 /\
    Block.height g = 0 /\
    Block.previousBlockHash g = None /\
    Block.body g = encode (Block.GenesisData "Genesis Block") /\
    Block.time g = Blockchain.seconds_string now /\
    selfValidate g = true.
Proof.
  unfold Blockchain.constructor, Blockchain.initializeChain.
  change (bool_decide (Blockchain.height Blockchain.empty = -1)) with true.
  cbv iota. rewrite _addBlock_empty. simpl.
  eexists. split; [reflexivity|]. repeat split.
  unfold selfValidate. apply bool_decide_eq_true_2. reflexivity.
Qed.

(** X10. On a reachable ledger [initializeChain] does nothing: the height
    is never -1 again, so no second genesis block is made. *)
Theorem initializeChain_once (now : Z) (self : Blockchain.t) :
  reachable self ->
  Blockchain.initializeChain now self = (Fulfilled tt, self).
Proof.
  intros Hr. pose proof (reachable_ok self Hr) as Hok.
  unfold Blockchain.initializeChain.
  rewrite bool_decide_eq_false_2; [reflexivity|].
  intros Heq. rewrite (ok_height self Hok) in Heq.
  destruct (Blockchain.chain self) eqn:Hc;
    [exact (ok_nonempty self Hok Hc) | simpl in Heq; lia].
Qed.

(** X11. After the constructor and any number of appends, each run to
    completion, the cached height is the number of appends and the chain
    holds one block more. *)
Theorem appends_count (now : Z) (steps : list (Z * Block.data)) :
  let self :=
    fold_left (fun s step => snd (Blockchain._addBlock (fst step) (Block_new (snd step)) s))
              steps (Blockchain.constructor now) in
  Blockchain.height self = Z.of_nat (length steps) /\
  length (Blockchain.chain self) = S (length steps) /\
  Blockchain.getChainHeight self = (Fulfilled (Z.of_nat (length steps)), self).
Proof.
  assert (Hgen : forall steps s,
    chain_ok s ->
    let s' := fold_left
                (fun s step => snd (Blockchain._addBlock (fst step) (Block_new (snd step)) s))
                steps s in
    chain_ok s' /\
    length (Blockchain.chain s') = (length (Blockchain.chain s) + length steps)%nat).
  { clear steps. induction steps as [|[t d] steps IH]; intros s Hok; simpl.
    - split; [exact Hok | lia].
    - destruct (_addBlock_ok t (Block_new d) s Hok) as (prev & Hlast & Heq).
      destruct (IH (snd (Blockchain._addBlock t (Block_new d) s))
                  (chain_ok_addBlock t (Block_new d) s Hok)) as [Hok' Hlen].
      split; [exact Hok'|]. rewrite Hlen, Heq. simpl. rewrite length_app. simpl. lia. }
  intros self.
  destruct (Hgen steps (Blockchain.constructor now) (chain_ok_constructor now))
    as [Hok Hlen].
  fold self in Hok, Hlen.
  assert (Hone : length (Blockchain.chain (Blockchain.constructor now)) = 1%nat).
  { unfold Blockchain.constructor, Blockchain.initializeChain.
    change (bool_decide (Blockchain.height Blockchain.empty = -1)) with true.
    cbv iota. rewrite _addBlock_empty. reflexivity. }
  rewrite Hone in Hlen.
  assert (Hh : Blockchain.height self = Z.of_nat (length steps)).
  { rewrite (ok_height self Hok), Hlen. lia. }
  split; [exact Hh|]. split; [lia|].
  unfold Blockchain.getChainHeight. rewrite Hh. reflexivity.
Qed.

(** X12. Two appends that both read the height before either callback
    runs: the second callback stores its block with the height and the
    previous hash the first block got, and the ledger is no longer well
    formed. *)
Theorem interleaved_appends_break_chain
    (now now' : Z) (block1 block2 : Block.t) (self : Blockchain.t) :
  reachable self ->
  let h := Blockchain.height self in
  let s1 := snd (Blockchain._addBlock_then now block1 h self) in
  let s2 := snd (Blockchain._addBlock_then now' block2 h s1) in
  exists b1 b2,
    Blockchain.chain s2 = Blockchain.chain self ++ [b1; b2] /\
    Block.height b1 = h + 1 /\ Block.height b2 = h + 1 /\
    Block.previousBlockHash b2 = Block.previousBlockHash b1 /\
    Blockchain.height s2 = h + 2 /\
    ~ chain_ok s2.
Proof.
  intros Hr h s1 s2. pose proof (reachable_ok self Hr) as Hok.
  destruct (_addBlock_ok now block1 self Hok) as (prev & Hlast & Heq).
  assert (Hs1 : s1 = Blockchain.mk
                       (Blockchain.chain self ++ [sealed now (h + 1) (Block.hash prev) block1])
                       (h + 1)).
  { subst s1 h. change (Blockchain._addBlock_then now block1 (Blockchain.height self) self)
      with (Blockchain._addBlock now block1 self). rewrite Heq. reflexivity. }
  assert (Hlen : (0 < length (Blockchain.chain self))%nat).
  { destruct (Blockchain.chain self) eqn:Hc;
      [exact (False_ind _ (ok_nonempty self Hok Hc)) | simpl; lia]. }
  assert (Hh : h = Z.of_nat (length (Blockchain.chain self)) - 1)
    by apply (ok_height self Hok).
  assert (Hs2 : s2 = Blockchain.mk
                       (Blockchain.chain self
                          ++ [sealed now (h + 1) (Block.hash prev) block1;
                              sealed now' (h + 1) (Block.hash prev) block2])
                       (h + 2)).
  { subst s2. rewrite Hs1. unfold Blockchain._addBlock_then. simpl.
    replace (h >? -1) with true by (symmetry; apply Z.gtb_lt; lia).
    rewrite lookup_app_l by lia.
    rewrite last_lookup in Hlast.
    replace (Z.to_nat h) with (pred (length (Blockchain.chain self))) by lia.
    rewrite Hlast. destruct block2. simpl. rewrite <- app_assoc.
    f_equal. lia. }
  eexists. eexists. rewrite Hs2. simpl.
  split; [reflexivity|]. split; [reflexivity|]. split; [reflexivity|].
  split; [reflexivity|]. split; [reflexivity|].
  intros [_ Hhs _ _ _]. simpl in Hhs.
  specialize (Hhs (S (length (Blockchain.chain self)))
                  (sealed now' (h + 1) (Block.hash prev) block2)).
  rewrite lookup_app_r in Hhs by lia.
  replace (S (length (Blockchain.chain self)) - length (Blockchain.chain self))%nat
    with 1%nat in Hhs by lia.
  specialize (Hhs eq_refl). simpl in Hhs. lia.
Qed.

(** X2. For a clock reading of at least one second, the time [_addBlock]
    writes into the block it stores on a reachable ledger is the decimal
    string of the whole seconds, which [parseInt] reads back, and the current
    time of [submitStar] at that reading is the same number. *)
Theorem stored_time_is_clock_seconds (now : Z) (block : Block.t) (self : Blockchain.t) :
  reachable self ->
  1000 <= now ->
  exists b self',
    Blockchain._addBlock now block self = (Fulfilled b, self') /\
    Block.time b = JS.toString (now / 1000) /\
    JS.parseInt (Block.time b) = JS.Num (now / 1000) /\
    Blockchain.currentTime now = JS.Num (now / 1000).
Proof.
  intros Hr Hn.
  destruct (_addBlock_ok now block self (reachable_ok self Hr)) as (prev & _ & Heq).
  eexists. eexists. split; [exact Heq|].
  assert (Ht : Block.time (sealed now (Blockchain.height self + 1) (Block.hash prev) block)
               = JS.toString (now / 1000)).
  { simpl. apply seconds_string_toString. exact Hn. }
  split; [exact Ht|]. split.
  - rewrite Ht. apply parseInt_toString, Z.div_pos; lia.
  - apply currentTime_seconds. exact Hn.
Qed.

(** X22. On a reachable ledger [getBlockByHeight] returns the block at the
    position the height names, and [null] for a negative height and for a
    height at or past the length of the chain. *)
Theorem getBlockByHeight_in_and_out_of_range (self : Blockchain.t) :
  reachable self ->
  (forall (i : nat) (b : Block.t),
     Blockchain.chain self !! i = Some b ->
     Blockchain.getBlockByHeight (Z.of_nat i) self = (Fulfilled (Some b), self)) /\
  (forall h : Z,
     h < 0 \/ Z.of_nat (length (Blockchain.chain self)) <= h ->
     Blockchain.getBlockByHeight h self = (Fulfilled None, self)).
Proof.
  intros Hr. split.
  - intros i b Hi. rewrite (getBlockByHeight_reachable self _ Hr).
    replace (0 <=? Z.of_nat i) with true by (symmetry; apply Z.leb_le; lia).
    rewrite Nat2Z.id, Hi. reflexivity.
  - intros h Hh. rewrite (getBlockByHeight_reachable self _ Hr).
    destruct (0 <=? h) eqn:Hsign; [|reflexivity].
    apply Z.leb_le in Hsign. rewrite lookup_ge_None_2 by lia. reflexivity.
Qed.

End MoreLedger.

Section MoreReads.
Context `{Capabilities}.

(** *** Looking blocks up *)

Lemma find_first_match (hash : option string) (l : list Block.t) :
  match List.find (fun block => bool_decide (Block.hash block = hash)) l with
  | Some b =>
      exists i : nat,
        l !! i = Some b /\ Block.hash b = hash /\
        forall (j : nat) (b' : Block.t),
          (j < i)%nat -> l !! j = Some b' -> Block.hash b' <> hash
  | None => forall b, b ∈ l -> Block.hash b <> hash
  end.
Proof.
  induction l as [|x l IH]; simpl.
  - intros b Hb. inversion Hb.
  - destruct (bool_decide (Block.hash x = hash)) eqn:Hx.
    + apply bool_decide_eq_true_1 in Hx. exists 0%nat.
      split; [reflexivity|]. split; [exact Hx|]. intros j b' Hj. lia.
    + apply bool_decide_eq_false_1 in Hx.
      destruct (List.find _ l) as [b|].
      * destruct IH as (i & Hi & Hb & Hbefore). exists (S i).
        split; [exact Hi|]. split; [exact Hb|].
        intros [|j] b' Hj Hl; simpl in Hl.
        -- injection Hl as <-. exact Hx.
        -- apply (Hbefore j b'); [lia | exact Hl].
      * intros b Hb. apply elem_of_cons in Hb as [-> | Hb]; [exact Hx | apply IH, Hb].
Qed.

(** X13. On any ledger [getBlockByHash] is fulfilled with the first block
    of the chain whose hash equals the argument, and with [null] exactly
    when no block of the chain has that hash. *)
Theorem getBlockByHash_first_match (hash : option string) (self : Blockchain.t) :
  exists found,
    Blockchain.getBlockByHash hash self = (Fulfilled found, self) /\
    match found with
    | Some b =>
        exists i : nat,
          Blockchain.chain self !! i = Some b /\ Block.hash b = hash /\
          forall (j : nat) (b' : Block.t),
            (j < i)%nat -> Blockchain.chain self !! j = Some b' -> Block.hash b' <> hash
    | None => forall b, b ∈ Blockchain.chain self -> Block.hash b <> hash
    end.
Proof.
  eexists. split; [reflexivity|]. apply find_first_match.
Qed.

(** X14. On a reachable ledger, looking up the hash of a stored block
    always finds a stored block with that hash, and looking up [null]
    finds nothing, since every stored block has a hash. *)
Theorem getBlockByHash_stored (self : Blockchain.t) :
  reachable self ->
  (forall b, b ∈ Blockchain.chain self ->
     exists b', Blockchain.getBlockByHash (Block.hash b) self = (Fulfilled (Some b'), self) /\
                Block.hash b' = Block.hash b /\ b' ∈ Blockchain.chain self) /\
  Blockchain.getBlockByHash None self = (Fulfilled None, self).
Proof.
  intros Hr. pose proof (sealed_hashes self Hr) as Hall.
  rewrite Forall_forall in Hall. split.
  - intros b Hb. unfold Blockchain.getBlockByHash.
    pose proof (find_first_match (Block.hash b) (Blockchain.chain self)) as Hf.
    destruct (List.find _ (Blockchain.chain self)) as [b'|].
    + destruct Hf as (i & Hi & Hh & _). exists b'. split; [reflexivity|].
      split; [exact Hh|]. apply list_elem_of_lookup. eauto.
    + exfalso. exact (Hf b Hb eq_refl).
  - unfold Blockchain.getBlockByHash.
    pose proof (find_first_match None (Blockchain.chain self)) as Hf.
    destruct (List.find _ (Blockchain.chain self)) as [b'|]; [|reflexivity].
    destruct Hf as (i & Hi & Hh & _).
    assert (Hin : b' ∈ Blockchain.chain self) by (apply list_elem_of_lookup; eauto).
    rewrite (Hall b' Hin) in Hh. discriminate.
Qed.

(** The shape of an accepted submission on a well-formed ledger. *)
Lemma submitStar_fulfilled_shape
    (now now' : Z) (address message signature star : string) (self : Blockchain.t)
    (block : Block.t) (self' : Blockchain.t) :
  chain_ok self ->
  Blockchain.submitStar now now' address message signature star self
  = (Fulfilled block, self') ->
  exists prev,
    last (Blockchain.chain self) = Some prev /\
    block = sealed now' (Blockchain.height self + 1) (Block.hash prev)
              (Block_new (Block.StarData address message signature star)) /\
    self' = Blockchain.mk (Blockchain.chain self ++ [block]) (Blockchain.height self + 1).
Proof.
  intros Hok Hsub.
  destruct (_addBlock_ok now' (Block_new (Block.StarData address message signature star))
              self Hok) as (prev & Hlast & Heq).
  unfold Blockchain.submitStar in Hsub.
  destruct (bitcoinMessage_verify message address signature) as [[|]|]; try discriminate.
  - destruct (JS.lt _ _); [|discriminate].
    rewrite Heq in Hsub. injection Hsub as <- <-.
    exists prev. split; [exact Hlast|]. split; reflexivity.
  - destruct (JS.lt _ _); discriminate.
Qed.

(** X15. On a reachable ledger, the block an accepted submission is
    fulfilled with is the block [getBlockByHeight] returns for its height on
    the ledger the submission leaves, and the cached height is that
    height. *)
Theorem submitted_block_found_by_height
    (now now' : Z) (address message signature star : string) (self : Blockchain.t)
    (block : Block.t) (self' : Blockchain.t) :
  reachable self ->
  Blockchain.submitStar now now' address message signature star self
  = (Fulfilled block, self') ->
  Blockchain.getBlockByHeight (Block.height block) self' = (Fulfilled (Some block), self') /\
  Blockchain.getChainHeight self' = (Fulfilled (Block.height block), self').
Proof.
  intros Hr Hsub.
  assert (Hr' : reachable self').
  { replace self' with
      (snd (Blockchain.submitStar now now' address message signature star self))
      by (rewrite Hsub; reflexivity).
    apply reachable_submitStar, Hr. }
  pose proof (reachable_ok self Hr) as Hok.
  destruct (submitStar_fulfilled_shape _ _ _ _ _ _ _ _ _ Hok Hsub)
    as (prev & _ & Hb & Hs).
  assert (Hbh : Block.height block = Z.of_nat (length (Blockchain.chain self))).
  { rewrite Hb, sealed_height, (ok_height self Hok). lia. }
  split.
  - rewrite (getBlockByHeight_reachable self' _ Hr').
    replace (0 <=? Block.height block) with true by (symmetry; apply Z.leb_le; lia).
    rewrite Hbh, Nat2Z.id. rewrite Hs at 1. simpl.
    rewrite lookup_app_r by lia. rewrite Nat.sub_diag. reflexivity.
  - unfold Blockchain.getChainHeight. f_equal. f_equal.
    rewrite Hs. simpl. rewrite Hbh, (ok_height self Hok). lia.
Qed.

End MoreReads.

Section MoreCallbacks.
Context `{Capabilities}.

(** *** What the callbacks of validateChain log *)

(** X16. For every ledger, and however [block.validate()] settles: when
    the executor of [validateChain] returns the promise is fulfilled with no
    value, nothing is logged and one callback per block is waiting; the
    callbacks leave the promise as it is, so the call never rejects. *)
Theorem validateChain_never_rejects (self : Blockchain.t) :
  let c := Blockchain.validateChain_executor self in
  Blockchain.validate_promise c = Some (Fulfilled tt) /\
  Blockchain.errorLog c = [] /\
  List.map fst (Blockchain.validate_jobs c) = Blockchain.chain self /\
  Blockchain.validate_promise (Blockchain.validateChain self) = Some (Fulfilled tt).
Proof.
  intros c. subst c. rewrite validateChain_executor_resolves. simpl.
  split; [reflexivity|]. split; [reflexivity|]. split.
  - rewrite map_map. simpl. apply map_id.
  - apply validateChain_always_resolves.
Qed.

(** How the callbacks treat a run of blocks that validate and are linked,
    the first to the expected hash and each next one to its predecessor. *)
Lemma validate_jobs_linked (l : list Block.t) :
  forall (log : list Blockchain.ErrorRecord) (e : option string) p q,
    (forall b, b ∈ l -> exists v, validate b = Fulfilled v) ->
    (forall g, l !! 0%nat = Some g -> Block.previousBlockHash g = e) ->
    (forall (i : nat) b b', l !! S i = Some b -> l !! i = Some b' ->
                            Block.previousBlockHash b = Block.hash b') ->
    fold_left (fun c job => Blockchain.validate_job (fst job) (snd job) c)
              (List.map (fun b => (b, validate b)) l)
              (Blockchain.mkValidateCall log e p q)
    = Blockchain.mkValidateCall log (from_option Block.hash e (last l)) p q.
Proof.
  induction l as [|x l IH]; intros log e p q Hval Hfirst Hlinks; [reflexivity|].
  simpl fold_left. simpl List.map.
  destruct (Hval x ltac:(left)) as [v Hv]. cbn [fold_left fst snd]. rewrite Hv.
  unfold Blockchain.validate_job. simpl.
  rewrite bool_decide_eq_true_2 by (symmetry; apply Hfirst; reflexivity).
  rewrite IH.
  - f_equal. destruct l as [|y l]; [reflexivity|]. rewrite !last_cons.
    destruct (last l); reflexivity.
  - intros b Hb. apply Hval. right. exact Hb.
  - intros g Hg. apply (Hlinks 0%nat g x); [exact Hg | reflexivity].
  - intros i b b' Hb Hb'. apply (Hlinks (S i) b b'); assumption.
Qed.

(** X17. On a reachable ledger whose blocks' [validate()] promises are
    fulfilled whenever the recomputed digest equals the stored hash, the
    callbacks of [validateChain] log nothing, and the expected previous hash
    ends as the hash of the last block. *)
Theorem validateChain_clean_on_reachable (self : Blockchain.t) :
  (forall b, selfValidate b = true -> exists v, validate b = Fulfilled v) ->
  reachable self ->
  Blockchain.errorLog (Blockchain.validateChain self) = [] /\
  Blockchain.previousBlockHash (Blockchain.validateChain self)
  = from_option Block.hash None (last (Blockchain.chain self)).
Proof.
  intros Hval Hr. pose proof (reachable_ok self Hr) as Hok.
  unfold Blockchain.validateChain, Blockchain.validateChain_jobs.
  rewrite validateChain_executor_resolves. cbn [Blockchain.validate_jobs].
  rewrite validate_jobs_linked.
  - split; reflexivity.
  - intros b Hb. apply Hval. exact (reachable_selfValidate self b Hr Hb).
  - intros g Hg. apply (ok_genesis self Hok g Hg).
  - intros i b b'. apply (ok_links self Hok).
Qed.

Lemma validate_jobs_failures jobs : forall c,
  List.map Blockchain.block
    (List.filter (fun r => String.eqb (Blockchain.message r) "Block validation fails")
       (Blockchain.errorLog
          (fold_left (fun c job => Blockchain.validate_job (fst job) (snd job) c) jobs c)))
  = List.map Blockchain.block
      (List.filter (fun r => String.eqb (Blockchain.message r) "Block validation fails")
         (Blockchain.errorLog c))
    ++ List.map fst
         (List.filter (fun job => match snd job with Rejected _ => true | Fulfilled _ => false end)
            jobs).
Proof.
  induction jobs as [|[b r] jobs IH]; intros c; simpl.
  - rewrite app_nil_r. reflexivity.
  - rewrite IH. unfold Blockchain.validate_job. destruct r as [v|e]; simpl.
    + destruct (bool_decide _); simpl; [reflexivity|].
      rewrite List.filter_app. simpl. rewrite app_nil_r. reflexivity.
    + rewrite List.filter_app, List.map_app. simpl. rewrite <- app_assoc. reflexivity.
Qed.

Lemma validate_jobs_log_length jobs : forall c,
  (length (Blockchain.errorLog
             (fold_left (fun c job => Blockchain.validate_job (fst job) (snd job) c) jobs c))
   <= length (Blockchain.errorLog c) + length jobs)%nat.
Proof.
  induction jobs as [|[b r] jobs IH]; intros c; simpl; [lia|].
  etransitivity; [apply IH|].
  unfold Blockchain.validate_job. destruct r as [v|e]; simpl.
  - destruct (bool_decide _); simpl; [lia|]. rewrite length_app. simpl. lia.
  - rewrite length_app. simpl. lia.
Qed.

(** X18. For every ledger, the records the callbacks of [validateChain] log
    with "Block validation fails" are, in chain order, exactly the blocks
    whose [validate()] promise was rejected, and the log never holds more
    records than the chain has blocks. *)
Theorem validateChain_logs_rejected_blocks (self : Blockchain.t) :
  List.map Blockchain.block
    (List.filter (fun r => String.eqb (Blockchain.message r) "Block validation fails")
       (Blockchain.errorLog (Blockchain.validateChain self)))
  = List.filter (fun b => match validate b with Rejected _ => true | Fulfilled _ => false end)
      (Blockchain.chain self) /\
  (length (Blockchain.errorLog (Blockchain.validateChain self))
   <= length (Blockchain.chain self))%nat.
Proof.
  unfold Blockchain.validateChain, Blockchain.validateChain_jobs.
  rewrite validateChain_executor_resolves. cbn [Blockchain.validate_jobs Blockchain.errorLog].
  split.
  - rewrite validate_jobs_failures. simpl.
    induction (Blockchain.chain self) as [|b l IH]; [reflexivity|].
    simpl. destruct (validate b); simpl; [exact IH | f_equal; exact IH].
  - etransitivity; [apply validate_jobs_log_length|]. simpl. rewrite length_map. lia.
Qed.

(** *** What the callbacks of getStarsByWalletAddress collect *)

(** X19. For every ledger and address: when the executor of
    [getStarsByWalletAddress] returns, the promise is fulfilled with an array
    that is empty at that moment, and one decode callback per block is
    waiting; after the callbacks the promise is still fulfilled with that
    array, also when a decode was rejected. *)
Theorem getStarsByWalletAddress_never_waits (address : string) (self : Blockchain.t) :
  let c := Blockchain.getStarsByWalletAddress_executor address self in
  let c' := Blockchain.getStarsByWalletAddress address self in
  exists r,
    Blockchain.stars_promise c = Some (Fulfilled r) /\
    Blockchain.array_of c r = [] /\
    Blockchain.stars_jobs c = List.map getBData (Blockchain.chain self) /\
    Blockchain.stars_promise c' = Some (Fulfilled r).
Proof.
  intros c c'. subst c c'.
  rewrite getStarsByWalletAddress_executor_resolves, getStarsByWalletAddress_filled.
  exists 1%nat. repeat split.
Qed.

(** X20. After the callbacks, the array the promise was fulfilled with
    holds an element exactly for the blocks whose payload decodes to a claim
    of the address: each element pairs the address with the star of such a
    block, and no block is left in the array. *)
Theorem getStarsByWalletAddress_collects (address : string) (self : Blockchain.t)
    (x : Blockchain.element) :
  x ∈ Blockchain.array_of (Blockchain.getStarsByWalletAddress address self) 1 <->
  exists b message signature star,
    b ∈ Blockchain.chain self /\
    getBData b = Fulfilled (Block.StarData address message signature star) /\
    x = Blockchain.StarElement (Blockchain.mkStarEntry address (Some star)).
Proof.
  rewrite getStarsByWalletAddress_filled. unfold Blockchain.array_of. simpl.
  rewrite list_elem_of_In, in_flat_map. split.
  - intros (b & Hb & Hx). apply list_elem_of_In in Hb.
    unfold entry_of in Hx. destruct (getBData b) as [body|e] eqn:Hd; [|inversion Hx].
    destruct (bool_decide (Block.address body = Some address)) eqn:Ha; [|inversion Hx].
    apply bool_decide_eq_true_1 in Ha.
    destruct body as [d|a m sg st]; simpl in Ha; [discriminate|].
    injection Ha as ->. destruct Hx as [<- | []].
    exists b, m, sg, st. split; [exact Hb|]. split; [exact Hd | reflexivity].
  - intros (b & m & sg & st & Hb & Hd & ->). exists b.
    split; [apply list_elem_of_In; exact Hb|].
    unfold entry_of. rewrite Hd. simpl.
    rewrite bool_decide_eq_true_2 by reflexivity. left. reflexivity.
Qed.

(** X21. On a reachable ledger, when the codec reads the encoded claim
    back, an accepted submission adds one element for its address and star
    at the end of what the callbacks collect for that address, and changes
    nothing of what they collect for any other address. *)
Theorem submitted_star_is_collected
    (now now' : Z) (address message signature star : string) (self : Blockchain.t)
    (block : Block.t) (self' : Blockchain.t) (other : string) :
  reachable self ->
  decode (encode (Block.StarData address message signature star))
  = Some (Block.StarData address message signature star) ->
  Blockchain.submitStar now now' address message signature star self
  = (Fulfilled block, self') ->
  other <> address ->
  getBData block = Fulfilled (Block.StarData address message signature star) /\
  Blockchain.array_of (Blockchain.getStarsByWalletAddress address self') 1
  = Blockchain.array_of (Blockchain.getStarsByWalletAddress address self) 1
    ++ [Blockchain.StarElement (Blockchain.mkStarEntry address (Some star))] /\
  Blockchain.array_of (Blockchain.getStarsByWalletAddress other self') 1
  = Blockchain.array_of (Blockchain.getStarsByWalletAddress other self) 1.
Proof.
  intros Hr Hcodec Hsub Hother.
  destruct (submitStar_fulfilled_shape _ _ _ _ _ _ _ _ _ (reachable_ok self Hr) Hsub)
    as (prev & _ & Hb & Hs).
  assert (Hd : getBData block = Fulfilled (Block.StarData address message signature star)).
  { unfold getBData. rewrite Hb, sealed_body. simpl. rewrite Hcodec. reflexivity. }
  split; [exact Hd|].
  rewrite !getStarsByWalletAddress_filled. unfold Blockchain.array_of. simpl.
  rewrite Hs. simpl. rewrite !flat_map_app. simpl. rewrite Hd. simpl.
  rewrite bool_decide_eq_true_2 by reflexivity.
  rewrite bool_decide_eq_false_2 by congruence.
  rewrite !app_nil_r. split; reflexivity.
Qed.

End MoreCallbacks.

(** *** The further properties at sample ledgers *)

Lemma addressA_no_colon : ~ In ":"%char (list_ascii_of_string Fake.addressA).
Proof.
  intros Hin. vm_compute in Hin.
  repeat (destruct Hin as [Hin | Hin]; [discriminate Hin|]). exact Hin.
Defined.

(** X1 for a challenge issued to [addressA]. *)
Lemma challenge_round_trip_witness :
  JS.split ":" (Blockchain.requestMessageOwnershipVerification 1700000000123 Fake.addressA)
  = [Fake.addressA; JS.toString (1700000000123 / 1000); "starRegistry"%string] /\
  Blockchain.messageTime
    (Blockchain.requestMessageOwnershipVerification 1700000000123 Fake.addressA)
  = JS.Num (1700000000123 / 1000).
Proof.
  apply (challenge_round_trip 1700000000123 Fake.addressA); [lia | exact addressA_no_colon].
Defined.

(** X2 for an append on a new ledger. *)
Lemma stored_time_is_clock_seconds_witness :
  exists b self',
    Blockchain._addBlock (H := Fake.caps) 1700000010500
      (Block_new (H := Fake.caps) (Block.GenesisData "x")) Fake.ledger0
    = (Fulfilled b, self') /\
    Block.time b = JS.toString (1700000010500 / 1000) /\
    JS.parseInt (Block.time b) = JS.Num (1700000010500 / 1000) /\
    Blockchain.currentTime 1700000010500 = JS.Num (1700000010500 / 1000).
Proof.
  apply (stored_time_is_clock_seconds (H := Fake.caps) 1700000010500
           (Block_new (H := Fake.caps) (Block.GenesisData "x")) Fake.ledger0
           ledger0_reachable).
  lia.
Defined.

(** X3 at a clock reading of 999 milliseconds. *)
Lemma submitStar_before_first_second_witness :
  Blockchain.currentTime 999 = JS.NaN /\
  Blockchain.submitStar (H := Fake.caps) 999 999
    Fake.addressA Fake.messageA Fake.signatureA Fake.starA Fake.ledger0
  = (Rejected ExpiredChallenge, Fake.ledger0).
Proof.
  apply (submitStar_before_first_second (H := Fake.caps) 999 999
           Fake.addressA Fake.messageA Fake.signatureA Fake.starA Fake.ledger0 true).
  - lia.
  - vm_compute. reflexivity.
Defined.

(** X4 for a challenge issued at second 1700000000 and submitted 299
    seconds later. *)
Lemma challenge_accepted_within_five_minutes_witness :
  let message := Blockchain.requestMessageOwnershipVerification 1700000000123 Fake.addressA in
  Blockchain.submitStar (H := Fake.caps) 1700000299999 1700000300000
    Fake.addressA message Fake.signatureA Fake.starA Fake.ledger0
  = if 1700000299999 / 1000 - 1700000000123 / 1000 <? 300
    then Blockchain._addBlock (H := Fake.caps) 1700000300000
           (Block_new (H := Fake.caps)
              (Block.StarData Fake.addressA message Fake.signatureA Fake.starA))
           Fake.ledger0
    else (Rejected ExpiredChallenge, Fake.ledger0).
Proof.
  apply (challenge_accepted_within_five_minutes (H := Fake.caps)
           1700000000123 1700000299999 1700000300000
           Fake.addressA Fake.signatureA Fake.starA Fake.ledger0).
  - lia.
  - lia.
  - exact addressA_no_colon.
  - vm_compute. reflexivity.
Defined.

(** X7 for the claim of [ledger1]. *)
Lemma submitStar_fulfilled_sound_witness :
  bitcoinMessage_verify (Capabilities := Fake.caps)
    Fake.messageA Fake.addressA Fake.signatureA = Returns true /\
  (exists e, elapsed 1700000010000 Fake.messageA = JS.Num e /\ e < 300) /\
  Block.body Fake.claim_block
  = encode (Capabilities := Fake.caps)
      (Block.StarData Fake.addressA Fake.messageA Fake.signatureA Fake.starA) /\
  Block.height Fake.claim_block = Blockchain.height Fake.ledger0 + 1.
Proof.
  apply (submitStar_fulfilled_sound (H := Fake.caps) 1700000010000 1700000010500
           Fake.addressA Fake.messageA Fake.signatureA Fake.starA Fake.ledger0
           Fake.claim_block).
  vm_compute. reflexivity.
Defined.

(** X8 for a message dated ten seconds after the clock. *)
Lemma submitStar_accepts_every_fresh_claim_witness :
  exists prev block,
    last (Blockchain.chain Fake.ledger0) = Some prev /\
    Blockchain.submitStar (H := Fake.caps) 1699999990000 1699999990500
      Fake.addressA Fake.messageA Fake.signatureA Fake.starA Fake.ledger0
    = (Fulfilled block,
       Blockchain.mk (Blockchain.chain Fake.ledger0 ++ [block])
                     (Blockchain.height Fake.ledger0 + 1)) /\
    Block.previousBlockHash block = Block.hash prev /\
    Block.height block = Z.of_nat (length (Blockchain.chain Fake.ledger0)).
Proof.
  apply (submitStar_accepts_every_fresh_claim (H := Fake.caps) 1699999990000 1699999990500
           Fake.addressA Fake.messageA Fake.signatureA Fake.starA Fake.ledger0 (-10)).
  - exact ledger0_reachable.
  - vm_compute. reflexivity.
  - vm_compute. reflexivity.
  - lia.
Defined.

(** X10 on the ledger with one claim. *)
Lemma initializeChain_once_witness :
  Blockchain.initializeChain (H := Fake.caps) 1700000020000 Fake.ledger1
  = (Fulfilled tt, Fake.ledger1).
Proof.
  apply (initializeChain_once (H := Fake.caps) 1700000020000 Fake.ledger1 ledger1_reachable).
Defined.

(** X12 for two appends on a new ledger. *)
Lemma interleaved_appends_break_chain_witness :
  let block1 := Block_new (H := Fake.caps) (Block.StarData "a" "m" "s" "star1") in
  let block2 := Block_new (H := Fake.caps) (Block.StarData "a" "m" "s" "star2") in
  let h := Blockchain.height Fake.ledger0 in
  let s1 := snd (Blockchain._addBlock_then (H := Fake.caps) 1700000010000 block1 h Fake.ledger0) in
  let s2 := snd (Blockchain._addBlock_then (H := Fake.caps) 1700000010001 block2 h s1) in
  exists b1 b2,
    Blockchain.chain s2 = Blockchain.chain Fake.ledger0 ++ [b1; b2] /\
    Block.height b1 = h + 1 /\ Block.height b2 = h + 1 /\
    Block.previousBlockHash b2 = Block.previousBlockHash b1 /\
    Blockchain.height s2 = h + 2 /\
    ~ chain_ok s2.
Proof.
  apply (interleaved_appends_break_chain (H := Fake.caps) 1700000010000 1700000010001
           (Block_new (H := Fake.caps) (Block.StarData "a" "m" "s" "star1"))
           (Block_new (H := Fake.caps) (Block.StarData "a" "m" "s" "star2"))
           Fake.ledger0 ledger0_reachable).
Defined.

(** X14 on the ledger with one claim. *)
Lemma getBlockByHash_stored_witness :
  (forall b, b ∈ Blockchain.chain Fake.ledger1 ->
     exists b', Blockchain.getBlockByHash (Block.hash b) Fake.ledger1
                = (Fulfilled (Some b'), Fake.ledger1) /\
                Block.hash b' = Block.hash b /\ b' ∈ Blockchain.chain Fake.ledger1) /\
  Blockchain.getBlockByHash None Fake.ledger1 = (Fulfilled None, Fake.ledger1).
Proof.
  apply (getBlockByHash_stored (H := Fake.caps) Fake.ledger1 ledger1_reachable).
Defined.

(** X15 for the claim of [ledger1]. *)
Lemma submitted_block_found_by_height_witness :
  Blockchain.getBlockByHeight (Block.height Fake.claim_block) Fake.ledger1
  = (Fulfilled (Some Fake.claim_block), Fake.ledger1) /\
  Blockchain.getChainHeight Fake.ledger1
  = (Fulfilled (Block.height Fake.claim_block), Fake.ledger1).
Proof.
  apply (submitted_block_found_by_height (H := Fake.caps) 1700000010000 1700000010500
           Fake.addressA Fake.messageA Fake.signatureA Fake.starA Fake.ledger0
           Fake.claim_block Fake.ledger1 ledger0_reachable).
  vm_compute. reflexivity.
Defined.

Lemma fake_validate_fulfils (b : Block.t) :
  selfValidate (H := Fake.caps) b = true ->
  exists v, validate (Capabilities := Fake.caps) b = Fulfilled v.
Proof.
  intros Hb. exists true. unfold selfValidate, content in Hb. simpl in Hb.
  simpl. unfold Fake.validate. rewrite Hb. reflexivity.
Defined.

(** X17 on the ledger with one claim. *)
Lemma validateChain_clean_on_reachable_witness :
  Blockchain.errorLog (Blockchain.validateChain (H := Fake.caps) Fake.ledger1) = [] /\
  Blockchain.previousBlockHash (Blockchain.validateChain (H := Fake.caps) Fake.ledger1)
  = from_option Block.hash None (last (Blockchain.chain Fake.ledger1)).
Proof.
  apply (validateChain_clean_on_reachable (H := Fake.caps) Fake.ledger1
           fake_validate_fulfils ledger1_reachable).
Defined.

(** X21 for the claim of [ledger1], with [addressB] as the other address. *)
Lemma submitted_star_is_collected_witness :
  getBData (H := Fake.caps) Fake.claim_block
  = Fulfilled (Block.StarData Fake.addressA Fake.messageA Fake.signatureA Fake.starA) /\
  Blockchain.array_of (Blockchain.getStarsByWalletAddress (H := Fake.caps) Fake.addressA Fake.ledger1) 1
  = Blockchain.array_of (Blockchain.getStarsByWalletAddress (H := Fake.caps) Fake.addressA Fake.ledger0) 1
    ++ [Blockchain.StarElement (Blockchain.mkStarEntry Fake.addressA (Some Fake.starA))] /\
  Blockchain.array_of (Blockchain.getStarsByWalletAddress (H := Fake.caps) Fake.addressB Fake.ledger1) 1
  = Blockchain.array_of (Blockchain.getStarsByWalletAddress (H := Fake.caps) Fake.addressB Fake.ledger0) 1.
Proof.
  apply (submitted_star_is_collected (H := Fake.caps) 1700000010000 1700000010500
           Fake.addressA Fake.messageA Fake.signatureA Fake.starA Fake.ledger0
           Fake.claim_block Fake.ledger1 Fake.addressB ledger0_reachable).
  - vm_compute. reflexivity.
  - vm_compute. reflexivity.
  - intros Heq. vm_compute in Heq. discriminate Heq.
Defined.

(** X22 on the ledger with one claim. *)
Lemma getBlockByHeight_in_and_out_of_range_witness :
  (forall (i : nat) (b : Block.t),
     Blockchain.chain Fake.ledger1 !! i = Some b ->
     Blockchain.getBlockByHeight (Z.of_nat i) Fake.ledger1 = (Fulfilled (Some b), Fake.ledger1)) /\
  (forall h : Z,
     h < 0 \/ Z.of_nat (length (Blockchain.chain Fake.ledger1)) <= h ->
     Blockchain.getBlockByHeight h Fake.ledger1 = (Fulfilled None, Fake.ledger1)).
Proof.
  apply (getBlockByHeight_in_and_out_of_range (H := Fake.caps) Fake.ledger1 ledger1_reachable).
Defined.
